(** * humumls: the RRF table creator (src/humumls/tablecreator.py)

    A shallow embedding of the streaming passes that turn the MRCONSO,
    MRDEF, MRREL and MRSTY files into the concept, term and string
    aggregates, together with the properties the specification states
    about them.

    Conventions of the embedding:
    - a Python [str] is a list of Unicode code points ([text]), a [bytes]
      object a list of byte values, both over [Z];
    - a raised exception is the [Err] case of [result]; a pass is a fold
      of a per-record step over the lines of its file, so the first
      exception aborts the pass as it does in Python;
    - the outer [defaultdict] of a pass, keyed by a CUI, LUI or SUI read
      from the file, is a [gmap]; the inner [defaultdict(list)], which the
      source only ever indexes with literal field names, is a record whose
      fields are [None] until the source first touches them;
    - [str.strip], [str.split], [str.lower] and the regular expression
      class [\W] depend on the Unicode character database: the two
      predicates and the case mapping are the fields of [UnicodeDB], and
      an ASCII instance runs the passes on concrete files;
    - the database is the record [Database] of the one request the source
      sends to it; the progress bar and the printed messages of the
      source are left out; a file is the list of its lines. *)

From Stdlib Require Import ZArith Lia ZifyBool String Ascii.
From stdpp Require Import base option list gmap strings.

Abbreviation text := (list Z).

(** ** Exceptions and the result monad *)

Inductive exn : Type :=
  | IndexError
  | KeyError (k : text)
  | TypeError
  | UnboundLocalError
  | UnicodeEncodeError
  | UnicodeDecodeError
  | PyMongoError (name : text).

Inductive result (A : Type) : Type :=
  | Ok (a : A)
  | Err (e : exn).
Arguments Ok {A} a.
Arguments Err {A} e.

#[global] Instance result_ret : MRet result := fun A a => Ok a.
#[global] Instance result_bind : MBind result := fun A B f m =>
  match m with Ok a => f a | Err e => Err e end.
#[global] Instance result_fmap : FMap result := fun A B f m =>
  match m with Ok a => Ok (f a) | Err e => Err e end.

(** [txt] reads an ASCII literal of the source as a [str]. *)
Definition txt (s : string) : text :=
  (fun a => Z.of_nat (nat_of_ascii a)) <$> list_ascii_of_string s.

(** ** UTF-8: [str.encode("utf-8")] and [bytes.decode("utf-8")] *)

Section Utf8.
Local Open Scope Z_scope.

Definition is_surrogate (c : Z) : bool := (0xD800 <=? c) && (c <=? 0xDFFF).

Definition encode_char (c : Z) : result (list Z) :=
  if c <? 0 then Err UnicodeEncodeError
  else if c <? 0x80 then Ok [c]
  else if c <? 0x800 then Ok [0xC0 + c / 64; 0x80 + c mod 64]
  else if c <? 0x10000 then
    if is_surrogate c then Err UnicodeEncodeError
    else Ok [0xE0 + c / 4096; 0x80 + (c / 64) mod 64; 0x80 + c mod 64]
  else if c <? 0x110000 then
    Ok [0xF0 + c / 262144; 0x80 + (c / 4096) mod 64;
        0x80 + (c / 64) mod 64; 0x80 + c mod 64]
  else Err UnicodeEncodeError.

Fixpoint utf8_encode (s : text) : result (list Z) :=
  match s with
  | [] => Ok []
  | c :: s' =>
      match encode_char c, utf8_encode s' with
      | Ok e, Ok r => Ok (e ++ r)
      | Err x, _ => Err x
      | _, Err x => Err x
      end
  end.

(** The four shapes of an encoded character. *)
Inductive encoded (c : Z) : list Z -> Prop :=
  | enc1 : 0 <= c < 0x80 -> encoded c [c]
  | enc2 : 0x80 <= c < 0x800 -> encoded c [0xC0 + c / 64; 0x80 + c mod 64]
  | enc3 : 0x800 <= c < 0x10000 -> ~ (0xD800 <= c <= 0xDFFF) ->
      encoded c [0xE0 + c / 4096; 0x80 + (c / 64) mod 64; 0x80 + c mod 64]
  | enc4 : 0x10000 <= c < 0x110000 ->
      encoded c [0xF0 + c / 262144; 0x80 + (c / 4096) mod 64;
                 0x80 + (c / 64) mod 64; 0x80 + c mod 64].

Definition is_cont (b : Z) : bool := (0x80 <=? b) && (b <=? 0xBF).

(** The strict decoder: a truncated sequence, a stray continuation byte,
    an overlong form, a surrogate or a value above U+10FFFF is an error. *)
Fixpoint utf8_decode (bs : list Z) : result text :=
  match bs with
  | [] => Ok []
  | b0 :: r0 =>
      if (0 <=? b0) && (b0 <? 0x80) then cons b0 <$> utf8_decode r0
      else if (0xC2 <=? b0) && (b0 <=? 0xDF) then
        match r0 with
        | b1 :: r1 =>
            if is_cont b1
            then cons ((b0 - 0xC0) * 64 + (b1 - 0x80)) <$> utf8_decode r1
            else Err UnicodeDecodeError
        | _ => Err UnicodeDecodeError
        end
      else if (0xE0 <=? b0) && (b0 <=? 0xEF) then
        match r0 with
        | b1 :: b2 :: r2 =>
            let c := (b0 - 0xE0) * 4096 + (b1 - 0x80) * 64 + (b2 - 0x80) in
            if is_cont b1 && is_cont b2 && (0x800 <=? c) && negb (is_surrogate c)
            then cons c <$> utf8_decode r2
            else Err UnicodeDecodeError
        | _ => Err UnicodeDecodeError
        end
      else if (0xF0 <=? b0) && (b0 <=? 0xF4) then
        match r0 with
        | b1 :: b2 :: b3 :: r3 =>
            let c := (b0 - 0xF0) * 262144 + (b1 - 0x80) * 4096
                     + (b2 - 0x80) * 64 + (b3 - 0x80) in
            if is_cont b1 && is_cont b2 && is_cont b3
               && (0x10000 <=? c) && (c <? 0x110000)
            then cons c <$> utf8_decode r3
            else Err UnicodeDecodeError
        | _ => Err UnicodeDecodeError
        end
      else Err UnicodeDecodeError
  end.

(** The BSON length check of [_create_strings]:
    [byte_string = string.encode("utf-8")];
    [if len(byte_string) >= 1000: string = byte_string[:1000].decode('utf-8')]. *)
Definition length_guard (string : text) : result text :=
  byte_string ← utf8_encode string;
  if (1000 <=? length byte_string)%nat
  then utf8_decode (take 1000 byte_string)
  else Ok string.

End Utf8.

(** ** The string operations of the source *)

(** What the source takes from the Unicode character database:
    [isspace] is the white space of [str.strip()] and [str.split()],
    [isword] the class [\w] of the pattern [PUNCT = re.compile("\W")],
    [lower] is [str.lower()]. *)
Class UnicodeDB : Type := {
  isspace : Z -> bool;
  isword : Z -> bool;
  lower : text -> text
}.

Definition SPACE : Z := 32.
Definition PIPE : Z := 124.

Section PyStr.
Context `{UnicodeDB}.

Fixpoint lstrip (s : text) : text :=
  match s with
  | [] => []
  | c :: s' => if isspace c then lstrip s' else s
  end.

Definition rstrip (s : text) : text := reverse (lstrip (reverse s)).

(** [s.strip()] *)
Definition strip (s : text) : text := rstrip (lstrip s).

(** [s.split(sep)] for a one-character separator: never the empty list. *)
Fixpoint split_on (sep : Z) (s : text) : list text :=
  match s with
  | [] => [[]]
  | c :: s' =>
      if Z.eqb c sep then [] :: split_on sep s'
      else match split_on sep s' with
           | w :: ws => (c :: w) :: ws
           | [] => [[c]]
           end
  end.

(** [s.split()]: the maximal runs of characters that are not white space. *)
Fixpoint split_ws (s : text) : list text :=
  match s with
  | [] => []
  | c :: s' =>
      if isspace c then split_ws s'
      else match s' with
           | [] => [[c]]
           | c' :: _ =>
               if isspace c' then [c] :: split_ws s'
               else match split_ws s' with
                    | w :: ws => (c :: w) :: ws
                    | [] => [[c]]
                    end
           end
  end.

(** [sep.join(ws)] *)
Fixpoint join (sep : text) (ws : list text) : text :=
  match ws with
  | [] => []
  | [w] => w
  | w :: ws' => w ++ sep ++ join sep ws'
  end.

(** [PUNCT.sub(" ", s)] *)
Definition punct_sub (s : text) : text :=
  (fun c => if isword c then c else SPACE) <$> s.

(** [" ".join(PUNCT.sub(" ", string).lower().split())] *)
Definition lowerwords (string : text) : text :=
  join [SPACE] (split_ws (lower (punct_sub string))).

(** [record.strip().split("|")] *)
Definition fields (record : text) : list text := split_on PIPE (strip record).

End PyStr.

(** [split[i]] *)
Definition getitem (split : list text) (i : nat) : result text :=
  match split !! i with
  | Some x => Ok x
  | None => Err IndexError
  end.

(** What the normal form relies on in the character database: a word
    character is no white space, the space is; [str.lower] maps the empty
    string to itself, leaves a space in place and treats the parts on its
    two sides separately, and maps a word without white space to a word
    without white space. *)
Class UnicodeLaws (db : UnicodeDB) : Prop := {
  isspace_SPACE : isspace SPACE = true;
  isword_not_isspace : forall c, isword c = true -> isspace c = false;
  lower_nil : lower [] = [];
  lower_SPACE : forall a b, lower (a ++ SPACE :: b) = lower a ++ SPACE :: lower b;
  lower_word : forall w,
    w <> [] -> Forall (fun c => isspace c = false) w ->
    lower w <> [] /\ Forall (fun c => isspace c = false) (lower w)
}.

(** The ASCII part of the character database. *)
Definition ascii_isspace (c : Z) : bool :=
  ((9 <=? c) && (c <=? 13) || (28 <=? c) && (c <=? 32))%Z.
Definition ascii_isword (c : Z) : bool :=
  ((48 <=? c) && (c <=? 57) || (65 <=? c) && (c <=? 90)
   || (97 <=? c) && (c <=? 122) || (c =? 95))%Z.
Definition ascii_lower (s : text) : text :=
  (fun c => if ((65 <=? c) && (c <=? 90))%Z then (c + 32)%Z else c) <$> s.

Definition ascii_db : UnicodeDB :=
  {| isspace := ascii_isspace; isword := ascii_isword; lower := ascii_lower |}.

(** ** The tables of the source *)

Definition LANGDICT : gmap text text :=
  list_to_map
    [ (txt "ENG", txt "en"); (txt "BAQ", txt "eu"); (txt "CHI", txt "zh");
      (txt "CZE", txt "cz"); (txt "DAN", txt "dk"); (txt "DUT", txt "nl");
      (txt "EST", txt "et"); (txt "FIN", txt "fi"); (txt "FRE", txt "fr");
      (txt "GER", txt "de"); (txt "GRE", txt "gr"); (txt "HEB", txt "he");
      (txt "HUN", txt "hu"); (txt "ITA", txt "it"); (txt "JPN", txt "jp");
      (txt "KOR", txt "ko"); (txt "LAV", txt "lv"); (txt "NOR", txt "no");
      (txt "POL", txt "pl"); (txt "POR", txt "po"); (txt "RUS", txt "ru");
      (txt "SPA", txt "sp"); (txt "SWE", txt "sw"); (txt "TUR", txt "tr") ].

Definition RELATIONMAPPING : gmap text text :=
  list_to_map
    [ (txt "PAR", txt "parent"); (txt "CHD", txt "child");
      (txt "RB", txt "broader"); (txt "RN", txt "narrower");
      (txt "SY", txt "synonym"); (txt "RO", txt "other");
      (txt "RL", txt "similar"); (txt "RQ", txt "related");
      (txt "SIB", txt "sibling"); (txt "AQ", txt "qualifier");
      (txt "QB", txt "qualifies"); (txt "RU", txt "unspecified");
      (txt "XR", txt "notrelated") ].

(** [d[k]] on a plain dict *)
Definition dict_getitem (d : gmap text text) (k : text) : result text :=
  match d !! k with
  | Some v => Ok v
  | None => Err (KeyError k)
  end.

(** ** The aggregates *)

(** The value under ["rel"]: the list the [defaultdict(list)] creates on
    the first access, or the [defaultdict(list)] [process_mrrel] puts in
    its place. *)
Inductive relfield : Type :=
  | RelList (l : list text)
  | RelDict (d : gmap text (list text)).

(** [concepts[cui]]: the keys ["_id"], ["preferred"], ["lui"], ["sui"],
    ["rel"], ["definition"], ["semtype"]. *)
Module Concept.
Record t : Type := mk {
  _id : option text;
  preferred : option text;
  lui : option (list text);
  sui : option (list text);
  rel : option relfield;
  definition : option (list text);
  semtype : option (list text)
}.
Definition empty : t := mk None None None None None None None.
Definition set__id (v : text) (c : t) : t :=
  mk (Some v) (preferred c) (lui c) (sui c) (rel c) (definition c) (semtype c).
Definition set_preferred (v : text) (c : t) : t :=
  mk (_id c) (Some v) (lui c) (sui c) (rel c) (definition c) (semtype c).
Definition set_lui (v : list text) (c : t) : t :=
  mk (_id c) (preferred c) (Some v) (sui c) (rel c) (definition c) (semtype c).
Definition set_sui (v : list text) (c : t) : t :=
  mk (_id c) (preferred c) (lui c) (Some v) (rel c) (definition c) (semtype c).
Definition set_rel (v : relfield) (c : t) : t :=
  mk (_id c) (preferred c) (lui c) (sui c) (Some v) (definition c) (semtype c).
Definition set_definition (v : list text) (c : t) : t :=
  mk (_id c) (preferred c) (lui c) (sui c) (rel c) (Some v) (semtype c).
Definition set_semtype (v : list text) (c : t) : t :=
  mk (_id c) (preferred c) (lui c) (sui c) (rel c) (definition c) (Some v).
End Concept.

(** [terms[lui]]: the keys ["_id"], ["cui"], ["sui"]. *)
Module Term.
Record t : Type := mk {
  _id : option text;
  cui : option (list text);
  sui : option (list text)
}.
Definition empty : t := mk None None None.
End Term.

(** [strings[sui]]: the keys ["_id"], ["string"], ["lower"], ["lang"],
    ["numwords"], ["numwordslower"], ["lui"], ["cui"]. *)
Module StringRecord.
Record t : Type := mk {
  _id : option text;
  string : option text;
  lower : option text;
  lang : option text;
  numwords : option nat;
  numwordslower : option nat;
  lui : option text;
  cui : option (list text)
}.
Definition empty : t := mk None None None None None None None None.
End StringRecord.

(** [d[k]] on a [defaultdict(list)] field that has not been touched yet is
    the empty list. *)
Definition field_list (f : option (list text)) : list text := default [] f.

(** ** The database *)

(** The handle [MongoClient(host=host, port=port).get_database(dbname)].
    The client connects lazily, so the handle is there before any
    request is sent. [create_index db collection keys unique] is
    [db.<collection>.create_index(keys, unique=unique)], the one request
    of the source: it returns the name of the index or raises, for
    instance when no server can be reached. *)
Record Database : Type := {
  create_index : text -> list (text * Z) -> bool -> result text
}.

(** [pymongo.ASCENDING] *)
Definition ASCENDING : Z := 1%Z.

(** ** The passes *)

(** [for idx, _ in enumerate(open(path)): pass] followed by
    [num_lines = idx]: [idx] is the last index the loop bound, and is
    unbound when the loop body never ran. *)
Definition count_lines (lines : list text) : result Z :=
  match last (seq 0 (length lines)) with
  | Some idx => Ok (Z.of_nat idx)
  | None => Err UnboundLocalError
  end.

(** [for record in tqdm(open(path), total=num_lines): ...]: the body runs
    on every line in order; an exception leaves the loop and the pass. *)
Fixpoint for_each {S : Type} (body : S -> text -> result S)
    (st : S) (lines : list text) : result S :=
  match lines with
  | [] => Ok st
  | record :: rest => st' ← body st record; for_each body st' rest
  end.

(** [languages and split[1] not in languages]: the condition of the
    [continue]. *)
Definition rejected (languages : gset text) (split : list text) : result bool :=
  if decide (languages = ∅) then Ok false
  else lang ← getitem split 1; Ok (bool_decide (lang ∉ languages)).

Section Passes.
Context `{UnicodeDB}.

(** The accepted branch of the loop body of [_create_concepts]. *)
Definition concepts_add (concepts : gmap text Concept.t)
    (cui sui lui flag : text) : gmap text Concept.t :=
  let c := default Concept.empty (concepts !! cui) in
  let c := Concept.set__id cui c in
  let c := if decide (flag = txt "P") then Concept.set_preferred lui c else c in
  let c := Concept.set_lui (field_list (Concept.lui c) ++ [lui]) c in
  let c := Concept.set_sui (field_list (Concept.sui c) ++ [sui]) c in
  <[cui := c]> concepts.

Definition concepts_record (languages : gset text)
    (concepts : gmap text Concept.t) (record : text)
    : result (gmap text Concept.t) :=
  let split := fields record in
  skip ← rejected languages split;
  if (skip : bool) then Ok concepts
  else
    cui ← getitem split 0;
    sui ← getitem split 5;
    lui ← getitem split 3;
    flag ← getitem split 2;
    Ok (concepts_add concepts cui sui lui flag).

(** The accepted branch of the loop body of [_create_terms]. *)
Definition terms_add (terms : gmap text Term.t) (cui sui lui : text)
    : gmap text Term.t :=
  let t := default Term.empty (terms !! lui) in
  <[lui := Term.mk (Some lui)
                   (Some (field_list (Term.cui t) ++ [cui]))
                   (Some (field_list (Term.sui t) ++ [sui]))]> terms.

Definition terms_record (languages : gset text)
    (terms : gmap text Term.t) (record : text) : result (gmap text Term.t) :=
  let split := fields record in
  skip ← rejected languages split;
  if (skip : bool) then Ok terms
  else
    cui ← getitem split 0;
    sui ← getitem split 5;
    lui ← getitem split 3;
    Ok (terms_add terms cui sui lui).

Definition _create_terms (mrconso : list text) (languages : gset text)
    : result (gmap text Term.t) :=
  num_lines ← count_lines mrconso;
  for_each (terms_record languages) ∅ mrconso.

(** The accepted branch of the loop body of [_create_strings]. *)
Definition strings_add (strings : gmap text StringRecord.t)
    (string lang cui sui lui : text) : gmap text StringRecord.t :=
  let r := default StringRecord.empty (strings !! sui) in
  let lowerwords := lowerwords string in
  <[sui := StringRecord.mk (Some sui) (Some string) (Some lowerwords)
             (Some lang)
             (Some (length (split_ws string)))
             (Some (length (split_ws lowerwords)))
             (Some lui)
             (Some (field_list (StringRecord.cui r) ++ [cui]))]> strings.

Definition strings_record (languages : gset text)
    (strings : gmap text StringRecord.t) (record : text)
    : result (gmap text StringRecord.t) :=
  let split := fields record in
  string ← getitem split 14;
  string ← length_guard string;
  skip ← rejected languages split;
  if (skip : bool) then Ok strings
  else
    cui ← getitem split 0;
    sui ← getitem split 5;
    lui ← getitem split 3;
    lang ← getitem split 1;
    Ok (strings_add strings string lang cui sui lui).

Definition _create_strings (mrconso : list text) (languages : gset text)
    : result (gmap text StringRecord.t) :=
  num_lines ← count_lines mrconso;
  for_each (strings_record languages) ∅ mrconso.

End Passes.

Section Enrichment.
Context `{UnicodeDB}.

(** [langid.classify(definition)[0]] *)
Variable classify : text -> text.

(** [{LANGDICT[l] for l in languages}] *)
Definition isolanguages_of (languages : gset text) : result (gset text) :=
  list_to_set <$> mapM (dict_getitem LANGDICT) (elements languages).

(** [concepts[pk]["definition"].append(definition)] *)
Definition definition_add (concepts : gmap text Concept.t)
    (pk definition : text) : gmap text Concept.t :=
  let c := default Concept.empty (concepts !! pk) in
  <[pk := Concept.set_definition
            (field_list (Concept.definition c) ++ [definition]) c]> concepts.

Definition mrdef_record (isolanguages : gset text)
    (preprocessor : option (text -> text))
    (concepts : gmap text Concept.t) (record : text)
    : result (gmap text Concept.t) :=
  let split := fields record in
  pk ← getitem split 0;
  definition ← getitem split 5;
  let lang := classify definition in
  if bool_decide (lang ∉ isolanguages) then Ok concepts
  else
    let definition :=
      match preprocessor with
      | Some f => f definition
      | None => definition
      end in
    Ok (definition_add concepts pk definition).

(** The closing loop of [process_mrdef]:
    [concepts[k]["definition"] = list(concepts[k]["definition"])] for
    every [k] whose aggregate has the key. *)
Definition relist_definitions (concepts : gmap text Concept.t)
    : gmap text Concept.t :=
  (fun c => match Concept.definition c with
            | Some l => Concept.set_definition l c
            | None => c
            end) <$> concepts.

Definition process_mrdef (mrdef : list text) (concepts : gmap text Concept.t)
    (languages : gset text) (preprocessor : option (text -> text))
    : result (gmap text Concept.t) :=
  isolanguages ← isolanguages_of languages;
  num_lines ← count_lines mrdef;
  concepts ← for_each (mrdef_record isolanguages preprocessor) concepts mrdef;
  Ok (relist_definitions concepts).

(** [concepts[source]["rel"][rel].append(dest)]: indexing the list a
    fresh ["rel"] holds with a [str] raises [TypeError]. *)
Definition rel_append (c : Concept.t) (rel dest : text) : result Concept.t :=
  match default (RelList []) (Concept.rel c) with
  | RelList _ => Err TypeError
  | RelDict d =>
      Ok (Concept.set_rel (RelDict (<[rel := default [] (d !! rel) ++ [dest]]> d)) c)
  end.

(** The [try] / [except TypeError] of [process_mrrel]; the handler's own
    append finds the dictionary it has just stored. *)
Definition rel_add (concepts : gmap text Concept.t) (source rel dest : text)
    : result (gmap text Concept.t) :=
  let c := default Concept.empty (concepts !! source) in
  match rel_append c rel dest with
  | Ok c' => Ok (<[source := c']> concepts)
  | Err TypeError =>
      c' ← rel_append (Concept.set_rel (RelDict ∅) c) rel dest;
      Ok (<[source := c']> concepts)
  | Err e => Err e
  end.

Definition mrrel_record (concepts : gmap text Concept.t) (record : text)
    : result (gmap text Concept.t) :=
  let split := fields record in
  source ← getitem split 4;
  dest ← getitem split 0;
  code ← getitem split 3;
  rel ← dict_getitem RELATIONMAPPING code;
  rel_add concepts source rel dest.

Definition process_mrrel (mrrel : list text) (concepts : gmap text Concept.t)
    : result (gmap text Concept.t) :=
  num_lines ← count_lines mrrel;
  for_each mrrel_record concepts mrrel.

(** [concepts[cui]["semtype"].append(semantic_type)] *)
Definition semtype_add (concepts : gmap text Concept.t)
    (cui semantic_type : text) : gmap text Concept.t :=
  let c := default Concept.empty (concepts !! cui) in
  <[cui := Concept.set_semtype
             (field_list (Concept.semtype c) ++ [semantic_type]) c]> concepts.

Definition mrsty_record (concepts : gmap text Concept.t) (record : text)
    : result (gmap text Concept.t) :=
  let split := fields record in
  cui ← getitem split 0;
  semantic_type ← getitem split 2;
  Ok (semtype_add concepts cui semantic_type).

Definition process_mrsty (mrsty : list text) (concepts : gmap text Concept.t)
    : result (gmap text Concept.t) :=
  num_lines ← count_lines mrsty;
  for_each mrsty_record concepts mrsty.

(** The four files of the META directory, as the lines [open] yields. *)
Record meta : Type := {
  MRCONSO : list text;
  MRDEF : list text;
  MRREL : list text;
  MRSTY : list text
}.

Definition _create_concepts (path : meta)
    (process_definitions process_relations process_semantic_types : bool)
    (languages : gset text) (preprocessor : option (text -> text))
    : result (gmap text Concept.t) :=
  num_lines ← count_lines (MRCONSO path);
  concepts ← for_each (concepts_record languages) ∅ (MRCONSO path);
  concepts ← (if process_definitions
              then process_mrdef (MRDEF path) concepts languages preprocessor
              else Ok concepts);
  concepts ← (if process_relations
              then process_mrrel (MRREL path) concepts
              else Ok concepts);
  concepts ← (if process_semantic_types
              then process_mrsty (MRSTY path) concepts
              else Ok concepts);
  Ok concepts.

(** [createdb]: the language check, the three constructions in the
    order of the source, the request for the index and the returned
    triple. The [KeyError] of the check is raised again with the message
    of the source as its argument. *)
Definition createdb (pathtometadir : meta) (languages : list text)
    (db : Database)
    (process_definitions process_relations process_semantic_types : bool)
    (preprocessor : option (text -> text))
    : result (gmap text Concept.t * gmap text StringRecord.t * gmap text Term.t) :=
  let languages : gset text := list_to_set languages in
  _ ← match isolanguages_of languages with
      | Err (KeyError _) =>
          Err (KeyError (txt "Not all languages you passed are valid."))
      | r => r
      end;
  terms ← _create_terms (MRCONSO pathtometadir) languages;
  strings ← _create_strings (MRCONSO pathtometadir) languages;
  concepts ← _create_concepts pathtometadir process_definitions
                process_relations process_semantic_types languages preprocessor;
  _ ← create_index db (txt "string")
        [(txt "string", ASCENDING); (txt "lower", ASCENDING);
         (txt "lang", ASCENDING)] true;
  Ok (concepts, strings, terms).

End Enrichment.

(** ** Observations on the aggregates *)

(** [concepts[cui]["rel"][name]], the empty list where a level is missing. *)
Definition relations_of (concepts : gmap text Concept.t) (cui name : text)
    : list text :=
  match concepts !! cui with
  | Some c =>
      match Concept.rel c with
      | Some (RelDict d) => default [] (d !! name)
      | _ => []
      end
  | None => []
  end.

(** A line of a file: the fields joined by the pipe, and the line
    terminator. *)
Definition line (s : string) : text := txt s ++ [10%Z].

(** A stored string fits the size limit of the store when it encodes to
    at most 1000 bytes that decode back to it. *)
Definition bounded_text (s : text) : Prop :=
  exists bs, utf8_encode s = Ok bs /\ length bs <= 1000 /\ utf8_decode bs = Ok s.

(** The record of a string aggregate holds a string within the limit. *)
Definition string_bounded (r : StringRecord.t) : Prop :=
  exists s, StringRecord.string r = Some s /\ bounded_text s.

(** The value under ["preferred"], when there is one, occurs in the list
    under ["lui"]. *)
Definition preferred_in_lui (c : Concept.t) : Prop :=
  forall p, Concept.preferred c = Some p ->
  exists l, Concept.lui c = Some l /\ p ∈ l.

(** The aggregate an enrichment pass creates for a key it has not met:
    one field and nothing else. *)
Definition only_rel (rel dest : text) : Concept.t :=
  Concept.mk None None None None (Some (RelDict {[rel := [dest]]})) None None.
Definition only_semtype (semantic_type : text) : Concept.t :=
  Concept.mk None None None None None None (Some [semantic_type]).

(** [concepts[cui]["rel"]] read as a dictionary: empty while the key is
    missing or still holds the list of the first access. *)
Definition rel_dict (c : Concept.t) : gmap text (list text) :=
  match Concept.rel c with
  | Some (RelDict d) => d
  | _ => ∅
  end.

(** The list [name] of concept [cui] after the relations pass has read
    [mrrel] into an empty table. *)
Definition relations_after `{UnicodeDB} (mrrel : list text) (cui name : text)
    : result (list text) :=
  (fun concepts => relations_of concepts cui name) <$> process_mrrel mrrel ∅.

(** A string of word characters and single spaces: every character is
    a word character or the space, and no space follows a space. *)
Definition words_and_single_spaces `{UnicodeDB} (s : text) : Prop :=
  Forall (fun c => isword c = true \/ c = SPACE) s
  /\ forall i, s !! i = Some SPACE -> s !! S i <> Some SPACE.

(** ** A small META directory

    Two atoms of one concept, one definition, one relation, one semantic
    type; the classifier of the example answers English. *)
Definition sample_mrconso : list text :=
  [ line "C001|ENG|P|L001|PF|S001|Y|A001||M001|D001|MSH|MH|D001|Hello, World!|0|N||";
    line "C001|ENG|S|L002|PF|S002|Y|A002||M001|D001|MSH|EP|D001|hello world|0|N||" ].
Definition sample_mrdef : list text :=
  [ line "C001|A001|AT001||MSH|A greeting.|N||" ].
Definition sample_relation : text :=
  line "C001|A001|AUI|PAR|C002|A002|AUI||R001||MSH|MSH|||N||".
Definition sample_unknown_relation : text :=
  line "C001|A001|AUI|ZZZ|C002|A002|AUI||R002||MSH|MSH|||N||".
Definition sample_semantic_type : text :=
  line "C001|T047|B2.2.1.2.1|Disease or Syndrome|AT002|256|".
Definition sample_meta : meta :=
  {| MRCONSO := sample_mrconso; MRDEF := sample_mrdef;
     MRREL := [sample_relation]; MRSTY := [sample_semantic_type] |}.
Definition sample_classify (definition : text) : text := txt "en".

(** A database that creates the index, and one no server answers for. *)
Definition sample_db : Database :=
  {| create_index := fun _ _ _ => Ok (txt "string_1_lower_1_lang_1") |}.
Definition unreachable_db : Database :=
  {| create_index := fun _ _ _ =>
       Err (PyMongoError (txt "ServerSelectionTimeoutError")) |}.

(** An MRCONSO record whose surface string is [string]. *)
Definition record_with_string (string : text) : text :=
  txt "C009|ENG|P|L009|PF|S009|Y|A009||M009|D009|MSH|MH|D009|" ++ string
  ++ line "|0|N||".

(** The aggregates of the sample. *)
Definition sample_C001 (definition : option (list text)) : Concept.t :=
  Concept.mk (Some (txt "C001")) (Some (txt "L001"))
    (Some [txt "L001"; txt "L002"]) (Some [txt "S001"; txt "S002"])
    None definition (Some [txt "B2.2.1.2.1"]).
Definition sample_concepts (definition : option (list text))
    : gmap text Concept.t :=
  <[txt "C001" := sample_C001 definition]>
    (<[txt "C002" := only_rel (txt "parent") (txt "C001")]> ∅).
Definition sample_S001 : StringRecord.t :=
  StringRecord.mk (Some (txt "S001")) (Some (txt "Hello, World!"))
    (Some (txt "hello world")) (Some (txt "ENG")) (Some 2) (Some 2)
    (Some (txt "L001")) (Some [txt "C001"]).
Definition sample_S002 : StringRecord.t :=
  StringRecord.mk (Some (txt "S002")) (Some (txt "hello world"))
    (Some (txt "hello world")) (Some (txt "ENG")) (Some 2) (Some 2)
    (Some (txt "L002")) (Some [txt "C001"]).
Definition sample_strings : gmap text StringRecord.t :=
  <[txt "S001" := sample_S001]> (<[txt "S002" := sample_S002]> ∅).

(** ** What a pass has collected *)

(** The fields of a record the language filter lets through; nothing for
    a record it skips or cannot test. *)
Definition accepted `{UnicodeDB} (languages : gset text) (record : text)
    : list (list text) :=
  match rejected languages (fields record) with
  | Ok false => [fields record]
  | _ => []
  end.

(** The accepted records of a file, in its order. *)
Definition accepted_records `{UnicodeDB} (languages : gset text)
    (lines : list text) : list (list text) :=
  lines ≫= accepted languages.

(** The field [val_col] of a record whose field [key_col] is [key]. *)
Definition pick (key_col val_col : nat) (key : text) (split : list text)
    : list text :=
  match split !! key_col, split !! val_col with
  | Some k, Some v => if decide (k = key) then [v] else []
  | _, _ => []
  end.

(** Column 0 of a relation record whose column 4 is [source] and whose
    code stands for [name]. *)
Definition pick_rel (source name : text) (split : list text) : list text :=
  match split !! 4, split !! 3, split !! 0 with
  | Some s, Some code, Some dest =>
      match RELATIONMAPPING !! code with
      | Some rel => if decide (s = source /\ rel = name) then [dest] else []
      | None => []
      end
  | _, _, _ => []
  end.

(** The definition of a record of [pk] whose classified language is in
    [isolanguages], after the preprocessor. *)
Definition pick_def (classify : text -> text) (isolanguages : gset text)
    (preprocessor : option (text -> text)) (pk : text) (split : list text)
    : list text :=
  match split !! 0, split !! 5 with
  | Some k, Some definition =>
      if decide (k = pk /\ classify definition ∈ isolanguages)
      then [match preprocessor with
            | Some f => f definition
            | None => definition
            end]
      else []
  | _, _ => []
  end.

(** The list fields of the aggregate of a key, empty while the key or the
    field is missing. *)
Definition term_cuis (terms : gmap text Term.t) (lui : text) : list text :=
  field_list (Term.cui (default Term.empty (terms !! lui))).
Definition term_suis (terms : gmap text Term.t) (lui : text) : list text :=
  field_list (Term.sui (default Term.empty (terms !! lui))).
Definition string_cuis (strings : gmap text StringRecord.t) (sui : text)
    : list text :=
  field_list (StringRecord.cui (default StringRecord.empty (strings !! sui))).
Definition concept_luis (concepts : gmap text Concept.t) (cui : text)
    : list text :=
  field_list (Concept.lui (default Concept.empty (concepts !! cui))).
Definition concept_suis (concepts : gmap text Concept.t) (cui : text)
    : list text :=
  field_list (Concept.sui (default Concept.empty (concepts !! cui))).
Definition concept_semtypes (concepts : gmap text Concept.t) (cui : text)
    : list text :=
  field_list (Concept.semtype (default Concept.empty (concepts !! cui))).
Definition concept_definitions (concepts : gmap text Concept.t) (cui : text)
    : list text :=
  field_list (Concept.definition (default Concept.empty (concepts !! cui))).

(** Column 3 of an MRCONSO record of [cui] whose column 2 is ["P"]. *)
Definition pick_preferred (cui : text) (split : list text) : list text :=
  match split !! 0, split !! 2, split !! 3 with
  | Some k, Some flag, Some lui =>
      if decide (k = cui /\ flag = txt "P") then [lui] else []
  | _, _, _ => []
  end.

(** Two aggregates with the same fields of the MRCONSO loop. *)
Definition same_mrconso_fields (c c' : Concept.t) : Prop :=
  Concept._id c' = Concept._id c
  /\ Concept.preferred c' = Concept.preferred c
  /\ Concept.lui c' = Concept.lui c
  /\ Concept.sui c' = Concept.sui c.

(** [concepts'] has every key of [concepts], each with the fields of the
    MRCONSO loop it had, and gives none of these fields to a new key. *)
Definition keeps_mrconso_fields (concepts concepts' : gmap text Concept.t)
    : Prop :=
  forall cui,
    (is_Some (concepts !! cui) -> is_Some (concepts' !! cui))
    /\ same_mrconso_fields (default Concept.empty (concepts !! cui))
         (default Concept.empty (concepts' !! cui)).

(** The value under ["rel"] is a dictionary, each of its keys a name of
    [RELATIONMAPPING] with a list that is not empty. *)
Definition rel_well_formed (c : Concept.t) : Prop :=
  match Concept.rel c with
  | None => True
  | Some (RelList _) => False
  | Some (RelDict d) =>
      forall name l, d !! name = Some l ->
        l <> [] /\ exists code, RELATIONMAPPING !! code = Some name
  end.

(** What the length guard lets through of a surface string. *)
Definition guarded (raw : text) : list text :=
  match length_guard raw with
  | Ok string => [string]
  | Err _ => []
  end.

(** The fields of a string record are those [_create_strings] derives
    from its string, and its language is one the filter accepts. *)
Definition string_record_derived `{UnicodeDB} (languages : gset text)
    (sui : text) (r : StringRecord.t) : Prop :=
  exists string lang lui cuis,
    r = StringRecord.mk (Some sui) (Some string) (Some (lowerwords string))
          (Some lang) (Some (length (split_ws string)))
          (Some (length (split_ws (lowerwords string))))
          (Some lui) (Some cuis)
    /\ cuis <> []
    /\ (languages = ∅ \/ lang ∈ languages).

(** ** Well-formed files *)

(** A file with at least one line, every line of which satisfies [P]. *)
Definition file_of (P : text -> Prop) (lines : list text) : Prop :=
  lines <> [] /\ Forall P lines.

(** An MRCONSO record with a column 14 the length guard lets through. *)
Definition mrconso_record_ok `{UnicodeDB} (record : text) : Prop :=
  exists raw string,
    fields record !! 14 = Some raw /\ length_guard raw = Ok string.

(** An MRDEF record with a column 5, an MRREL record with a column 4 and
    a code of the table in column 3, an MRSTY record with a column 2. *)
Definition mrdef_record_ok `{UnicodeDB} (record : text) : Prop :=
  5 < length (fields record).
Definition mrrel_record_ok `{UnicodeDB} (record : text) : Prop :=
  4 < length (fields record)
  /\ exists code, fields record !! 3 = Some code
                  /\ is_Some (RELATIONMAPPING !! code).
Definition mrsty_record_ok `{UnicodeDB} (record : text) : Prop :=
  2 < length (fields record).

(** The files of the enabled enrichment passes are well formed, and
    every configured language is a key of [LANGDICT] when the
    definitions are read. *)
Definition enrichment_ok `{UnicodeDB} (path : meta) (languages : gset text)
    (process_definitions process_relations process_semantic_types : bool)
    : Prop :=
  (process_definitions = true ->
     (forall l, l ∈ languages -> is_Some (LANGDICT !! l))
     /\ file_of mrdef_record_ok (MRDEF path))
  /\ (process_relations = true -> file_of mrrel_record_ok (MRREL path))
  /\ (process_semantic_types = true -> file_of mrsty_record_ok (MRSTY path)).

(** A META directory in which [C002], a CUI of no MRCONSO record, is the
    key of a definition, of the relation and of a semantic type; and one
    in which it is the key of a relation with a code the table lacks. *)
Definition shared_key_meta : meta :=
  {| MRCONSO := sample_mrconso;
     MRDEF := [line "C002|A002|AT003||MSH|A reply.|N||"];
     MRREL := [sample_relation];
     MRSTY := [line "C002|T047|B2.2.1.2.1|Disease or Syndrome|AT004|256|"] |}.
Definition unknown_code_meta : meta :=
  {| MRCONSO := sample_mrconso; MRDEF := sample_mrdef;
     MRREL := [sample_unknown_relation]; MRSTY := [sample_semantic_type] |}.


(** The terms of the sample. *)
Definition sample_terms : gmap text Term.t :=
  <[txt "L001" := Term.mk (Some (txt "L001")) (Some [txt "C001"])
                    (Some [txt "S001"])]>
    (<[txt "L002" := Term.mk (Some (txt "L002")) (Some [txt "C001"])
                       (Some [txt "S002"])]> ∅).

(** * Properties *)

(** ** UTF-8 *)

Section Utf8Facts.
Local Open Scope Z_scope.

Ltac arith := Z.to_euclidean_division_equations; lia.

(* settle one comparison of the goal by arithmetic *)
Ltac settle :=
  match goal with
  | |- context [?a <=? ?b] =>
      first [ replace (a <=? b) with true by (symmetry; apply Z.leb_le; arith)
            | replace (a <=? b) with false by (symmetry; apply Z.leb_gt; arith) ]
  | |- context [?a <? ?b] =>
      first [ replace (a <? b) with true by (symmetry; apply Z.ltb_lt; arith)
            | replace (a <? b) with false by (symmetry; apply Z.ltb_ge; arith) ]
  end.

Lemma encode_char_encoded c e : encode_char c = Ok e -> encoded c e.
Proof.
  unfold encode_char, is_surrogate.
  destruct (Z.ltb_spec c 0); [discriminate|].
  destruct (Z.ltb_spec c 0x80); [intros [= <-]; constructor; lia|].
  destruct (Z.ltb_spec c 0x800); [intros [= <-]; constructor; lia|].
  destruct (Z.ltb_spec c 0x10000).
  - destruct (Z.leb_spec 0xD800 c), (Z.leb_spec c 0xDFFF); cbn [andb];
      try discriminate; intros [= <-]; constructor; lia.
  - destruct (Z.ltb_spec c 0x110000); [|discriminate].
    intros [= <-]; constructor; lia.
Qed.

Lemma encoded_length c e : encoded c e -> (1 <= length e <= 4)%nat.
Proof. destruct 1; cbn; lia. Qed.

(** Decoding reads back one encoded character and goes on with the rest. *)
Lemma decode_encoded c e r :
  encoded c e -> utf8_decode (e ++ r) = cons c <$> utf8_decode r.
Proof.
  destruct 1; cbn [app utf8_decode]; unfold is_cont, is_surrogate.
  - repeat settle. reflexivity.
  - repeat settle. cbn [andb]. do 2 f_equal. arith.
  - assert (c < 0xD800 \/ 0xDFFF < c) as [Hc|Hc] by lia;
      repeat settle; cbn [andb negb]; do 2 f_equal; arith.
  - repeat settle. cbn [andb negb]. do 2 f_equal. arith.
Qed.

(** A proper, non-empty part of an encoded character does not decode. *)
Lemma decode_partial c e n :
  encoded c e -> (0 < n < length e)%nat ->
  utf8_decode (take n e) = Err UnicodeDecodeError.
Proof.
  destruct 1; cbn [length]; intros Hn.
  - lia.
  - assert (n = 1%nat) as -> by lia.
    cbn [take utf8_decode]. repeat settle. reflexivity.
  - assert (n = 1 \/ n = 2)%nat as [-> | ->] by lia;
      cbn [take utf8_decode]; repeat settle; reflexivity.
  - assert (n = 1 \/ n = 2 \/ n = 3)%nat as [-> | [-> | ->]] by lia;
      cbn [take utf8_decode]; repeat settle; reflexivity.
Qed.

Lemma utf8_encode_cons c s bs :
  utf8_encode (c :: s) = Ok bs ->
  exists e r, encode_char c = Ok e /\ utf8_encode s = Ok r /\ bs = e ++ r.
Proof.
  cbn [utf8_encode].
  destruct (encode_char c) as [e|]; [|discriminate].
  destruct (utf8_encode s) as [r|]; [|discriminate].
  intros [= <-]. eauto.
Qed.

Lemma utf8_decode_encode s bs :
  utf8_encode s = Ok bs -> utf8_decode bs = Ok s.
Proof.
  revert bs. induction s as [|c s IH]; intros bs.
  - intros [= <-]. reflexivity.
  - intros (e & r & He & Hr & ->)%utf8_encode_cons.
    rewrite (decode_encoded c e r) by (by apply encode_char_encoded).
    by rewrite (IH r Hr).
Qed.

(** Decoding the first [n] bytes of an encoded string: either [n] falls
    between two characters and the result is the prefix that ends there,
    or it falls inside a character and the decoder fails. *)
Lemma decode_take_encode s : forall bs n,
  utf8_encode s = Ok bs ->
  match utf8_decode (take n bs) with
  | Ok s' => s' `prefix_of` s /\ utf8_encode s' = Ok (take n bs)
  | Err x =>
      x = UnicodeDecodeError /\
      forall s', s' `prefix_of` s -> utf8_encode s' <> Ok (take n bs)
  end.
Proof.
  induction s as [|c s IH]; intros bs n.
  - intros [= <-]. rewrite take_nil. cbn. split; [done|done].
  - intros (e & r & He & Hr & ->)%utf8_encode_cons.
    pose proof (encode_char_encoded c e He) as Henc.
    pose proof (encoded_length c e Henc) as Hlen.
    destruct (decide (n = 0%nat)) as [-> | Hn0].
    { cbn. split; [apply prefix_nil | done]. }
    destruct (decide (n < length e)%nat) as [Hlt | Hge].
    + rewrite take_app_le by lia.
      rewrite (decode_partial c e n Henc) by lia.
      split; [done|]. intros s' [k Hk] Hs'.
      assert (length (take n e) = n) as Hl by (rewrite length_take; lia).
      destruct s' as [|c' s'].
      * cbn in Hs'. injection Hs' as Hs'. rewrite <- Hs' in Hl. cbn in Hl. lia.
      * injection Hk as -> Hk.
        apply utf8_encode_cons in Hs' as (e' & r' & He' & _ & Heq).
        rewrite He in He'. injection He' as <-.
        rewrite Heq, length_app in Hl. lia.
    + rewrite take_app_ge by lia.
      rewrite (decode_encoded c e _ Henc).
      specialize (IH r (n - length e)%nat Hr).
      destruct (utf8_decode (take (n - length e) r)) as [s''|x]; cbn.
      * destruct IH as [Hp Hs'']. split; [by apply prefix_cons|].
        by rewrite He, Hs''.
      * destruct IH as [-> IH]. split; [done|].
        intros s' [k Hk] Hs'. destruct s' as [|c' s'].
        -- cbn in Hs'. injection Hs' as Hs'.
           destruct e; [cbn in Hlen; lia | discriminate].
        -- injection Hk as -> Hk.
           apply utf8_encode_cons in Hs' as (e' & r' & He' & Hr' & Heq).
           rewrite He in He'. injection He' as <-.
           apply app_inv_head in Heq. subst r'.
           eapply IH; [|exact Hr']. by exists k.
Qed.

End Utf8Facts.

Lemma length_guard_eq s bs :
  utf8_encode s = Ok bs ->
  length_guard s =
    if (1000 <=? length bs)%nat then utf8_decode (take 1000 bs) else Ok s.
Proof. intros Hbs. unfold length_guard. by rewrite Hbs. Qed.

(** What [length_guard] returns fits the size limit. *)
Lemma length_guard_bounded s s' : length_guard s = Ok s' -> bounded_text s'.
Proof.
  destruct (utf8_encode s) as [bs|] eqn:Hbs;
    [rewrite (length_guard_eq s bs Hbs)
    |unfold length_guard; rewrite Hbs; discriminate].
  destruct (Nat.leb_spec 1000 (length bs)) as [Hlen|Hlen].
  - intros Hd. pose proof (decode_take_encode s bs 1000 Hbs) as Ht.
    rewrite Hd in Ht. destruct Ht as [_ He].
    exists (take 1000 bs). split; [done|]. split; [|done].
    rewrite length_take. lia.
  - intros [= <-]. exists bs. split; [done|]. split; [lia|].
    by apply utf8_decode_encode.
Qed.

(** C7. When the UTF-8 encoding of a surface string has at least 1000
    bytes, the length guard either returns the prefix of the string that
    encodes to exactly the first 1000 bytes, so that no character is cut,
    or, when no prefix of the string ends at byte 1000, raises
    [UnicodeDecodeError]; it never returns anything else. *)
Theorem length_guard_boundary_safe (s : text) (bs : list Z) :
  utf8_encode s = Ok bs ->
  1000 <= length bs ->
  (exists s', length_guard s = Ok s' /\ s' `prefix_of` s /\
              utf8_encode s' = Ok (take 1000 bs))
  \/ (length_guard s = Err UnicodeDecodeError /\
      forall s', s' `prefix_of` s -> utf8_encode s' <> Ok (take 1000 bs)).
Proof.
  intros Hbs Hlen. rewrite (length_guard_eq s bs Hbs).
  destruct (Nat.leb_spec 1000 (length bs)) as [_|?]; [|lia].
  pose proof (decode_take_encode s bs 1000 Hbs) as Ht.
  destruct (utf8_decode (take 1000 bs)) as [s'|x].
  - left. exists s'. by destruct Ht.
  - right. destruct Ht as [-> Ht]. done.
Qed.

(** C7 at a string of 999 letters, an e with acute accent and a letter:
    byte 1000 falls inside the accented letter. *)
Lemma length_guard_boundary_safe_witness :
  let s := replicate 999 97%Z ++ [233%Z; 97%Z] in
  let bs := replicate 999 97%Z ++ [195%Z; 169%Z; 97%Z] in
  (exists s', length_guard s = Ok s' /\ s' `prefix_of` s /\
              utf8_encode s' = Ok (take 1000 bs))
  \/ (length_guard s = Err UnicodeDecodeError /\
      forall s', s' `prefix_of` s -> utf8_encode s' <> Ok (take 1000 bs)).
Proof.
  intros s bs. apply (length_guard_boundary_safe s bs).
  - vm_compute. reflexivity.
  - apply Nat.leb_le. vm_compute. reflexivity.
Defined.

Example length_guard_inside_character :
  length_guard (replicate 999 97%Z ++ [233%Z; 97%Z]) = Err UnicodeDecodeError.
Proof. vm_compute. reflexivity. Qed.

Example length_guard_between_characters :
  length_guard (replicate 998 97%Z ++ [233%Z; 97%Z])
  = Ok (replicate 998 97%Z ++ [233%Z]).
Proof. vm_compute. reflexivity. Qed.

(** ** Loops and binds *)

Lemma bind_Ok_inv {A B : Type} (m : result A) (f : A -> result B) (b : B) :
  m ≫= f = Ok b -> exists a, m = Ok a /\ f a = Ok b.
Proof. destruct m as [a|e]; [eauto | discriminate]. Qed.

Lemma getitem_Ok split i x : getitem split i = Ok x <-> split !! i = Some x.
Proof.
  unfold getitem. destruct (split !! i); split; intros [= ->]; done.
Qed.

(** A property every successful run of the body preserves holds after a
    successful loop. *)
Lemma for_each_invariant {S : Type} (P : S -> Prop)
    (body : S -> text -> result S) (lines : list text) :
  (forall st record st', P st -> body st record = Ok st' -> P st') ->
  forall st st', P st -> for_each body st lines = Ok st' -> P st'.
Proof.
  intros Hbody. induction lines as [|record rest IH]; intros st st' HP.
  - intros [= <-]. done.
  - cbn [for_each]. intros (st1 & H1 & H2)%bind_Ok_inv. eauto.
Qed.

(** The loop stops at the first record on which the body raises. *)
Lemma for_each_raise {S : Type} (body : S -> text -> result S)
    (before after : list text) (record : text) (st st1 : S) (e : exn) :
  for_each body st before = Ok st1 ->
  body st1 record = Err e ->
  for_each body st (before ++ record :: after) = Err e.
Proof.
  revert st. induction before as [|r before IH]; intros st.
  - intros [= <-] He. cbn. by rewrite He.
  - cbn [for_each app]. intros (st2 & H1 & H2)%bind_Ok_inv He.
    rewrite H1. cbn. by apply IH.
Qed.

Lemma count_lines_cons record lines :
  count_lines (record :: lines) = Ok (Z.of_nat (length lines)).
Proof.
  unfold count_lines. cbn [length].
  replace (S (length lines)) with (length lines + 1) by lia.
  rewrite seq_app. cbn [seq]. rewrite last_snoc. reflexivity.
Qed.

(** ** The line count *)

(** C4. The pre-pass does not produce the number of lines: on a file of
    [n > 0] lines it produces [n - 1], the index of the last line, and on
    an empty file it raises [UnboundLocalError]. *)
Theorem count_lines_off_by_one (lines : list text) :
  count_lines lines
  = match lines with
    | [] => Err UnboundLocalError
    | _ :: _ => Ok (Z.of_nat (length lines) - 1)%Z
    end
  /\ count_lines lines <> Ok (Z.of_nat (length lines)).
Proof.
  destruct lines as [|record lines].
  - split; [reflexivity | discriminate].
  - rewrite count_lines_cons. cbn [length]. split.
    + f_equal. lia.
    + intros [= Hn]. lia.
Qed.

Example count_lines_three :
  count_lines [line "a|b"; line "c|d"; line "e|f"] = Ok 2%Z.
Proof. reflexivity. Qed.

Example count_lines_empty_file : count_lines [] = Err UnboundLocalError.
Proof. reflexivity. Qed.

(** ** The string aggregates *)

Section StringFacts.
Context `{UnicodeDB}.

Lemma strings_record_bounded languages strings record strings' :
  map_Forall (fun _ r => string_bounded r) strings ->
  strings_record languages strings record = Ok strings' ->
  map_Forall (fun _ r => string_bounded r) strings'.
Proof.
  intros Hinv. unfold strings_record.
  intros (s0 & _ & Hrow)%bind_Ok_inv.
  apply bind_Ok_inv in Hrow as (s & Hguard & Hrow).
  apply bind_Ok_inv in Hrow as (skip & _ & Hrow).
  destruct skip.
  - injection Hrow as <-. done.
  - apply bind_Ok_inv in Hrow as (cui & _ & Hrow).
    apply bind_Ok_inv in Hrow as (sui & _ & Hrow).
    apply bind_Ok_inv in Hrow as (lui & _ & Hrow).
    apply bind_Ok_inv in Hrow as (lang & _ & Hrow).
    injection Hrow as <-. unfold strings_add.
    apply map_Forall_insert_2; [|done].
    exists s. split; [done|]. by apply (length_guard_bounded s0).
Qed.

(** C3. Every record of the set [_create_strings] returns holds a
    string whose UTF-8 encoding has at most 1000 bytes and decodes back
    to it. *)
Theorem stored_strings_bounded (mrconso : list text) (languages : gset text)
    (strings : gmap text StringRecord.t) (sui : text) (r : StringRecord.t) :
  _create_strings mrconso languages = Ok strings ->
  strings !! sui = Some r ->
  exists s, StringRecord.string r = Some s /\ bounded_text s.
Proof.
  unfold _create_strings. intros (n & _ & Hloop)%bind_Ok_inv Hr.
  eapply (for_each_invariant (map_Forall (fun _ r => string_bounded r)))
    in Hloop.
  - exact (Hloop sui r Hr).
  - intros st record st' Hst Hbody. by eapply strings_record_bounded.
  - apply map_Forall_empty.
Qed.

End StringFacts.

(** ** The concept aggregates *)

Section ConceptFacts.
Context `{UnicodeDB}.
Variable classify : text -> text.

Lemma default_Forall (P : Concept.t -> Prop)
    (concepts : gmap text Concept.t) (k : text) :
  map_Forall (fun _ c => P c) concepts -> P Concept.empty ->
  P (default Concept.empty (concepts !! k)).
Proof.
  intros Hall Hempty. destruct (concepts !! k) as [c|] eqn:Hk; cbn; [|done].
  exact (Hall k c Hk).
Qed.

(** The relations step never raises: the handler repairs the one case in
    which the append does. *)
Lemma rel_add_eq concepts source rel dest :
  let c := default Concept.empty (concepts !! source) in
  rel_add concepts source rel dest
  = Ok (<[source :=
            Concept.set_rel
              (RelDict (<[rel := default [] (rel_dict c !! rel) ++ [dest]]>
                          (rel_dict c))) c]> concepts).
Proof.
  intros c. unfold rel_add, rel_append, rel_dict. fold c.
  destruct c as [i p l s r d t]. cbn.
  destruct r as [[lst|dict]|]; cbn; reflexivity.
Qed.

Lemma relations_of_eq concepts cui name :
  relations_of concepts cui name
  = default [] (rel_dict (default Concept.empty (concepts !! cui)) !! name).
Proof.
  unfold relations_of, rel_dict.
  destruct (concepts !! cui) as [c|]; cbn; [|by rewrite lookup_empty].
  destruct (Concept.rel c) as [[lst|dict]|]; cbn; by rewrite ?lookup_empty.
Qed.

Lemma relations_of_rel_add concepts source rel dest concepts' :
  rel_add concepts source rel dest = Ok concepts' ->
  relations_of concepts' source rel = relations_of concepts source rel ++ [dest]
  /\ forall cui name, (cui, name) <> (source, rel) ->
       relations_of concepts' cui name = relations_of concepts cui name.
Proof.
  rewrite rel_add_eq. intros [= <-]. split.
  - rewrite !relations_of_eq, lookup_insert_eq. cbn.
    unfold rel_dict at 1. cbn. by rewrite lookup_insert_eq.
  - intros cui name Hne. rewrite !relations_of_eq.
    destruct (decide (cui = source)) as [-> | Hcui].
    + rewrite lookup_insert_eq. cbn. unfold rel_dict at 1. cbn.
      rewrite lookup_insert_ne; [done | congruence].
    + by rewrite lookup_insert_ne.
Qed.

Lemma mrrel_record_eq concepts record source code dest :
  fields record !! 0 = Some dest ->
  fields record !! 3 = Some code ->
  fields record !! 4 = Some source ->
  mrrel_record concepts record
  = rel ← dict_getitem RELATIONMAPPING code; rel_add concepts source rel dest.
Proof.
  intros H0 H3 H4. unfold mrrel_record, getitem. by rewrite H0, H3, H4.
Qed.

(** C1, as the code has it. For a relation-file record with a CUI [dest]
    in column 0, a code in column 3 that the table maps to the name
    [rel], and a CUI [source] in column 4, the relations step appends the
    CUI of column 0 to the list [rel] of the concept keyed by the CUI of
    column 4, and changes no other relation list. *)
Theorem mrrel_record_appends (concepts : gmap text Concept.t)
    (record source code rel dest : text) :
  fields record !! 0 = Some dest ->
  fields record !! 3 = Some code ->
  fields record !! 4 = Some source ->
  RELATIONMAPPING !! code = Some rel ->
  exists concepts',
    mrrel_record concepts record = Ok concepts'
    /\ relations_of concepts' source rel
       = relations_of concepts source rel ++ [dest]
    /\ forall cui name, (cui, name) <> (source, rel) ->
         relations_of concepts' cui name = relations_of concepts cui name.
Proof.
  intros H0 H3 H4 Hrel.
  rewrite (mrrel_record_eq concepts record source code dest H0 H3 H4).
  unfold dict_getitem. rewrite Hrel. cbn.
  pose proof (rel_add_eq concepts source rel dest) as Heq. cbn in Heq.
  eexists. split; [exact Heq|].
  by apply relations_of_rel_add.
Qed.

Lemma split_on_head sep s : is_Some (split_on sep s !! 0).
Proof.
  induction s as [|c s IH]; cbn; [by eexists|].
  destruct (Z.eqb c sep); [by eexists|].
  destruct (split_on sep s); by eexists.
Qed.

Lemma count_lines_middle (before after : list text) (record : text) :
  exists n, count_lines (before ++ record :: after) = Ok n.
Proof.
  destruct before as [|r before]; cbn [app]; rewrite count_lines_cons; eauto.
Qed.

(** C6. For a relation-file record with the columns the step reads: when
    the code of column 3 is not in the table the step raises [KeyError]
    on that code, and the pass stops there with that error whatever lines
    follow; when the code is in the table the step returns. *)
Theorem unknown_relation_code_fatal (concepts : gmap text Concept.t)
    (record source code : text) :
  fields record !! 3 = Some code ->
  fields record !! 4 = Some source ->
  (RELATIONMAPPING !! code = None ->
     mrrel_record concepts record = Err (KeyError code)
     /\ forall before after start,
          for_each mrrel_record start before = Ok concepts ->
          process_mrrel (before ++ record :: after) start
          = Err (KeyError code))
  /\ (forall rel, RELATIONMAPPING !! code = Some rel ->
        exists concepts', mrrel_record concepts record = Ok concepts').
Proof.
  intros H3 H4.
  destruct (split_on_head PIPE (strip record)) as [dest H0].
  assert (forall cs, mrrel_record cs record
            = rel ← dict_getitem RELATIONMAPPING code;
              rel_add cs source rel dest) as Heq
    by (intros cs; by apply mrrel_record_eq).
  split.
  - intros Hnone.
    assert (forall cs, mrrel_record cs record = Err (KeyError code)) as Herr.
    { intros cs. rewrite Heq. unfold dict_getitem. by rewrite Hnone. }
    split; [apply Herr|].
    intros before after start Hbefore. unfold process_mrrel.
    destruct (count_lines_middle before after record) as [n ->]. cbn.
    by apply (for_each_raise _ before after record start concepts).
  - intros rel Hrel. rewrite Heq. unfold dict_getitem. rewrite Hrel. cbn.
    pose proof (rel_add_eq concepts source rel dest) as Hadd. cbn in Hadd.
    eauto.
Qed.

(** One step on a table that has nothing under the key. A relation-file
    record whose column 4 is a CUI with no aggregate yet, and a
    semantic-type record whose column 0 is one: the step neither raises
    nor skips, it stores under that CUI an aggregate with the ["rel"]
    (respectively ["semtype"]) field alone. *)
Lemma enrichment_step_creates_concept (concepts : gmap text Concept.t)
    (relrecord source code rel dest styrecord cui semantic_type : text) :
  fields relrecord !! 0 = Some dest ->
  fields relrecord !! 3 = Some code ->
  fields relrecord !! 4 = Some source ->
  RELATIONMAPPING !! code = Some rel ->
  concepts !! source = None ->
  fields styrecord !! 0 = Some cui ->
  fields styrecord !! 2 = Some semantic_type ->
  concepts !! cui = None ->
  mrrel_record concepts relrecord = Ok (<[source := only_rel rel dest]> concepts)
  /\ mrsty_record concepts styrecord
     = Ok (<[cui := only_semtype semantic_type]> concepts).
Proof.
  intros H0 H3 H4 Hrel Hsource S0 S2 Hcui. split.
  - rewrite (mrrel_record_eq concepts relrecord source code dest H0 H3 H4).
    unfold dict_getitem. rewrite Hrel. cbn.
    rewrite rel_add_eq, Hsource. cbn. unfold rel_dict. cbn.
    by rewrite lookup_empty.
  - unfold mrsty_record, getitem. rewrite S0, S2. cbn.
    unfold semtype_add. by rewrite Hcui.
Qed.

(** *** The preferred LUI *)

Lemma preferred_in_lui_empty : preferred_in_lui Concept.empty.
Proof. intros p [=]. Qed.

Lemma concepts_add_preferred concepts cui sui lui flag :
  map_Forall (fun _ c => preferred_in_lui c) concepts ->
  map_Forall (fun _ c => preferred_in_lui c)
    (concepts_add concepts cui sui lui flag).
Proof.
  intros Hinv. unfold concepts_add. apply map_Forall_insert_2; [|done].
  pose proof (default_Forall _ concepts cui Hinv preferred_in_lui_empty) as Hc.
  unfold preferred_in_lui in *.
  destruct (decide (flag = txt "P"));
    destruct (default Concept.empty (concepts !! cui)) as [i p l s r d t];
    cbn in *; intros q Hq; (eexists; split; [reflexivity|]).
  - injection Hq as <-. apply elem_of_app. right. apply list_elem_of_singleton.
    reflexivity.
  - destruct (Hc q Hq) as (l' & -> & Hin). cbn. apply elem_of_app. by left.
Qed.

Lemma concepts_record_preferred languages concepts record concepts' :
  map_Forall (fun _ c => preferred_in_lui c) concepts ->
  concepts_record languages concepts record = Ok concepts' ->
  map_Forall (fun _ c => preferred_in_lui c) concepts'.
Proof.
  intros Hinv. unfold concepts_record.
  intros (skip & _ & Hrow)%bind_Ok_inv. destruct skip.
  - by injection Hrow as <-.
  - apply bind_Ok_inv in Hrow as (cui & _ & Hrow).
    apply bind_Ok_inv in Hrow as (sui & _ & Hrow).
    apply bind_Ok_inv in Hrow as (lui & _ & Hrow).
    apply bind_Ok_inv in Hrow as (flag & _ & Hrow).
    injection Hrow as <-. by apply concepts_add_preferred.
Qed.

(** An update of one aggregate that leaves ["preferred"] and ["lui"] as
    they are keeps the property. *)
Lemma update_preferred (f : Concept.t -> Concept.t)
    (concepts : gmap text Concept.t) (k : text) :
  (forall c, Concept.preferred (f c) = Concept.preferred c
             /\ Concept.lui (f c) = Concept.lui c) ->
  map_Forall (fun _ c => preferred_in_lui c) concepts ->
  map_Forall (fun _ c => preferred_in_lui c)
    (<[k := f (default Concept.empty (concepts !! k))]> concepts).
Proof.
  intros Hf Hinv. apply map_Forall_insert_2; [|done].
  pose proof (default_Forall _ concepts k Hinv preferred_in_lui_empty) as Hc.
  destruct (Hf (default Concept.empty (concepts !! k))) as [Hp Hl].
  unfold preferred_in_lui in *. rewrite Hp, Hl. exact Hc.
Qed.

Lemma relist_definitions_id concepts : relist_definitions concepts = concepts.
Proof.
  unfold relist_definitions. apply map_eq. intros k. rewrite lookup_fmap.
  destruct (concepts !! k) as [c|]; [|done]. cbn. f_equal.
  destruct c as [i p l s r d t]. cbn. by destruct d.
Qed.

Lemma process_mrdef_preferred mrdef concepts languages preprocessor concepts' :
  map_Forall (fun _ c => preferred_in_lui c) concepts ->
  process_mrdef classify mrdef concepts languages preprocessor = Ok concepts' ->
  map_Forall (fun _ c => preferred_in_lui c) concepts'.
Proof.
  intros Hinv. unfold process_mrdef.
  intros (iso & _ & Hrun)%bind_Ok_inv.
  apply bind_Ok_inv in Hrun as (n & _ & Hrun).
  apply bind_Ok_inv in Hrun as (cs & Hloop & Hrun).
  injection Hrun as <-. rewrite relist_definitions_id.
  revert Hloop. apply for_each_invariant; [|done].
  clear. intros st record st' Hst. unfold mrdef_record.
  intros (pk & _ & Hrow)%bind_Ok_inv.
  apply bind_Ok_inv in Hrow as (definition & _ & Hrow).
  case_bool_decide; injection Hrow as <-; [done|].
  unfold definition_add.
  by apply (update_preferred (Concept.set_definition _)).
Qed.

Lemma process_mrrel_preferred mrrel concepts concepts' :
  map_Forall (fun _ c => preferred_in_lui c) concepts ->
  process_mrrel mrrel concepts = Ok concepts' ->
  map_Forall (fun _ c => preferred_in_lui c) concepts'.
Proof.
  intros Hinv. unfold process_mrrel. intros (n & _ & Hloop)%bind_Ok_inv.
  revert Hloop. apply for_each_invariant; [|done].
  clear. intros st record st' Hst. unfold mrrel_record.
  intros (source & _ & Hrow)%bind_Ok_inv.
  apply bind_Ok_inv in Hrow as (dest & _ & Hrow).
  apply bind_Ok_inv in Hrow as (code & _ & Hrow).
  apply bind_Ok_inv in Hrow as (rel & _ & Hrow).
  rewrite rel_add_eq in Hrow. injection Hrow as <-.
  by apply (update_preferred (Concept.set_rel _)).
Qed.

Lemma process_mrsty_preferred mrsty concepts concepts' :
  map_Forall (fun _ c => preferred_in_lui c) concepts ->
  process_mrsty mrsty concepts = Ok concepts' ->
  map_Forall (fun _ c => preferred_in_lui c) concepts'.
Proof.
  intros Hinv. unfold process_mrsty. intros (n & _ & Hloop)%bind_Ok_inv.
  revert Hloop. apply for_each_invariant; [|done].
  clear. intros st record st' Hst. unfold mrsty_record.
  intros (cui & _ & Hrow)%bind_Ok_inv.
  apply bind_Ok_inv in Hrow as (semantic_type & _ & Hrow).
  injection Hrow as <-. unfold semtype_add.
  by apply (update_preferred (Concept.set_semtype _)).
Qed.

(** The stages of [_create_concepts], one after the other. *)
Lemma create_concepts_stages path pd pr ps languages preprocessor concepts :
  _create_concepts classify path pd pr ps languages preprocessor = Ok concepts ->
  exists c0 c1 c2,
    for_each (concepts_record languages) ∅ (MRCONSO path) = Ok c0
    /\ (if pd then process_mrdef classify (MRDEF path) c0 languages preprocessor
        else Ok c0) = Ok c1
    /\ (if pr then process_mrrel (MRREL path) c1 else Ok c1) = Ok c2
    /\ (if ps then process_mrsty (MRSTY path) c2 else Ok c2) = Ok concepts.
Proof.
  unfold _create_concepts. intros (n & _ & Hrun)%bind_Ok_inv.
  apply bind_Ok_inv in Hrun as (c0 & H0 & Hrun).
  apply bind_Ok_inv in Hrun as (c1 & H1 & Hrun).
  apply bind_Ok_inv in Hrun as (c2 & H2 & Hrun).
  apply bind_Ok_inv in Hrun as (c3 & H3 & Hrun).
  injection Hrun as <-. eauto 10.
Qed.

(** C5. In the set [_create_concepts] returns, the value an aggregate
    holds under ["preferred"] is an element of the list it holds under
    ["lui"]. *)
Theorem preferred_lui_in_lui_list (path : meta)
    (process_definitions process_relations process_semantic_types : bool)
    (languages : gset text) (preprocessor : option (text -> text))
    (concepts : gmap text Concept.t) (cui : text) (c : Concept.t) (p : text) :
  _create_concepts classify path process_definitions process_relations
    process_semantic_types languages preprocessor = Ok concepts ->
  concepts !! cui = Some c ->
  Concept.preferred c = Some p ->
  exists l, Concept.lui c = Some l /\ p ∈ l.
Proof.
  intros (c0 & c1 & c2 & H0 & H1 & H2 & H3)%create_concepts_stages Hc.
  assert (map_Forall (fun _ c => preferred_in_lui c) c0) as I0.
  { revert H0. apply for_each_invariant; [|apply map_Forall_empty].
    intros st record st' Hst. by apply concepts_record_preferred. }
  assert (map_Forall (fun _ c => preferred_in_lui c) c1) as I1.
  { destruct process_definitions; [|by injection H1 as <-].
    by eapply process_mrdef_preferred. }
  assert (map_Forall (fun _ c => preferred_in_lui c) c2) as I2.
  { destruct process_relations; [|by injection H2 as <-].
    by eapply process_mrrel_preferred. }
  assert (map_Forall (fun _ c => preferred_in_lui c) concepts) as I3.
  { destruct process_semantic_types; [|by injection H3 as <-].
    by eapply process_mrsty_preferred. }
  exact (I3 cui c Hc p).
Qed.

(** *** Definitions under an empty language set *)

Lemma isolanguages_of_empty : isolanguages_of ∅ = Ok ∅.
Proof. unfold isolanguages_of. by rewrite elements_empty. Qed.

Lemma rejected_empty split : rejected ∅ split = Ok false.
Proof. unfold rejected. by rewrite decide_True. Qed.

(** No classified language is a member of the empty set: the step of the
    definitions pass leaves the table as it is. *)
Lemma mrdef_record_empty preprocessor concepts record concepts' :
  mrdef_record classify ∅ preprocessor concepts record = Ok concepts' ->
  concepts' = concepts.
Proof.
  unfold mrdef_record. intros (pk & _ & Hrow)%bind_Ok_inv.
  apply bind_Ok_inv in Hrow as (definition & _ & Hrow).
  rewrite bool_decide_eq_true_2 in Hrow by apply not_elem_of_empty.
  by injection Hrow as <-.
Qed.

Lemma process_mrdef_empty mrdef concepts preprocessor concepts' :
  process_mrdef classify mrdef concepts ∅ preprocessor = Ok concepts' ->
  concepts' = concepts.
Proof.
  unfold process_mrdef. rewrite isolanguages_of_empty. cbn.
  intros (n & _ & Hrun)%bind_Ok_inv.
  apply bind_Ok_inv in Hrun as (cs & Hloop & Hrun).
  injection Hrun as <-. rewrite relist_definitions_id.
  revert Hloop. apply (for_each_invariant (fun cs => cs = concepts)); [|done].
  intros st record st' -> Hrow. by eapply mrdef_record_empty.
Qed.

Lemma update_no_definition (f : Concept.t -> Concept.t)
    (concepts : gmap text Concept.t) (k : text) :
  (forall c, Concept.definition (f c) = Concept.definition c) ->
  map_Forall (fun _ c => Concept.definition c = None) concepts ->
  map_Forall (fun _ c => Concept.definition c = None)
    (<[k := f (default Concept.empty (concepts !! k))]> concepts).
Proof.
  intros Hf Hinv. apply map_Forall_insert_2; [|done]. rewrite Hf.
  by apply (default_Forall (fun c => Concept.definition c = None)).
Qed.

Lemma concepts_record_no_definition languages concepts record concepts' :
  map_Forall (fun _ c => Concept.definition c = None) concepts ->
  concepts_record languages concepts record = Ok concepts' ->
  map_Forall (fun _ c => Concept.definition c = None) concepts'.
Proof.
  intros Hinv. unfold concepts_record.
  intros (skip & _ & Hrow)%bind_Ok_inv. destruct skip.
  - by injection Hrow as <-.
  - apply bind_Ok_inv in Hrow as (cui & _ & Hrow).
    apply bind_Ok_inv in Hrow as (sui & _ & Hrow).
    apply bind_Ok_inv in Hrow as (lui & _ & Hrow).
    apply bind_Ok_inv in Hrow as (flag & _ & Hrow).
    injection Hrow as <-. unfold concepts_add.
    apply map_Forall_insert_2; [|done].
    pose proof (default_Forall (fun c => Concept.definition c = None)
                  concepts cui Hinv eq_refl) as Hc.
    destruct (decide (flag = txt "P"));
      destruct (default Concept.empty (concepts !! cui)); exact Hc.
Qed.

Lemma process_mrrel_no_definition mrrel concepts concepts' :
  map_Forall (fun _ c => Concept.definition c = None) concepts ->
  process_mrrel mrrel concepts = Ok concepts' ->
  map_Forall (fun _ c => Concept.definition c = None) concepts'.
Proof.
  intros Hinv. unfold process_mrrel. intros (n & _ & Hloop)%bind_Ok_inv.
  revert Hloop. apply for_each_invariant; [|done].
  clear. intros st record st' Hst. unfold mrrel_record.
  intros (source & _ & Hrow)%bind_Ok_inv.
  apply bind_Ok_inv in Hrow as (dest & _ & Hrow).
  apply bind_Ok_inv in Hrow as (code & _ & Hrow).
  apply bind_Ok_inv in Hrow as (rel & _ & Hrow).
  rewrite rel_add_eq in Hrow. injection Hrow as <-.
  by apply (update_no_definition (Concept.set_rel _)).
Qed.

Lemma process_mrsty_no_definition mrsty concepts concepts' :
  map_Forall (fun _ c => Concept.definition c = None) concepts ->
  process_mrsty mrsty concepts = Ok concepts' ->
  map_Forall (fun _ c => Concept.definition c = None) concepts'.
Proof.
  intros Hinv. unfold process_mrsty. intros (n & _ & Hloop)%bind_Ok_inv.
  revert Hloop. apply for_each_invariant; [|done].
  clear. intros st record st' Hst. unfold mrsty_record.
  intros (cui & _ & Hrow)%bind_Ok_inv.
  apply bind_Ok_inv in Hrow as (semantic_type & _ & Hrow).
  injection Hrow as <-. unfold semtype_add.
  by apply (update_no_definition (Concept.set_semtype _)).
Qed.

(** C9. With the empty language set and the definitions pass enabled, a
    run of [_create_concepts] that returns has returned what the run
    without the definitions pass returns, and no aggregate of the result
    has a ["definition"] field, although the same empty set makes the
    MRCONSO passes skip no record. *)
Theorem empty_languages_no_definitions (path : meta)
    (process_relations process_semantic_types : bool)
    (preprocessor : option (text -> text)) (concepts : gmap text Concept.t) :
  _create_concepts classify path true process_relations
    process_semantic_types ∅ preprocessor = Ok concepts ->
  _create_concepts classify path false process_relations
    process_semantic_types ∅ preprocessor = Ok concepts
  /\ (forall cui c, concepts !! cui = Some c -> Concept.definition c = None)
  /\ (forall split, rejected ∅ split = Ok false).
Proof.
  intros Hrun.
  assert (_create_concepts classify path false process_relations
            process_semantic_types ∅ preprocessor = Ok concepts) as Hoff.
  { revert Hrun. unfold _create_concepts.
    destruct (count_lines (MRCONSO path)) as [n|]; [|done]. cbn.
    destruct (for_each (concepts_record ∅) ∅ (MRCONSO path)) as [c0|]; [|done].
    cbn.
    destruct (process_mrdef classify (MRDEF path) c0 ∅ preprocessor)
      as [c1|] eqn:Hdef; [|done].
    by rewrite (process_mrdef_empty _ _ _ _ Hdef). }
  split; [exact Hoff|]. split; [|apply rejected_empty].
  apply create_concepts_stages in Hoff
    as (c0 & c1 & c2 & H0 & H1 & H2 & H3).
  injection H1 as <-.
  assert (map_Forall (fun _ c => Concept.definition c = None) c0) as I0.
  { revert H0. apply for_each_invariant; [|apply map_Forall_empty].
    intros st record st' Hst. by apply concepts_record_no_definition. }
  assert (map_Forall (fun _ c => Concept.definition c = None) c2) as I2.
  { destruct process_relations; [|by injection H2 as <-].
    by eapply process_mrrel_no_definition. }
  assert (map_Forall (fun _ c => Concept.definition c = None) concepts) as I3.
  { destruct process_semantic_types; [|by injection H3 as <-].
    by eapply process_mrsty_no_definition. }
  exact I3.
Qed.

End ConceptFacts.

(** ** The language filter *)

Section LanguageFilter.
Context `{UnicodeDB}.

Lemma rejected_eq languages split lang :
  split !! 1 = Some lang ->
  rejected languages split
  = Ok (bool_decide (languages <> ∅ /\ lang ∉ languages)).
Proof.
  intros H1. unfold rejected, getitem. rewrite H1.
  destruct (decide (languages = ∅)) as [Hempty|Hempty]; cbn.
  - rewrite bool_decide_eq_false_2; [done|]. intros [? _]. done.
  - f_equal. apply bool_decide_ext. split; [by intros ? | by intros [_ ?]].
Qed.

Lemma concepts_add_changes concepts cui sui lui flag :
  concepts_add concepts cui sui lui flag <> concepts.
Proof.
  intros Heq. apply (f_equal (fun m => m !! cui)) in Heq.
  unfold concepts_add in Heq. rewrite lookup_insert_eq in Heq.
  destruct (concepts !! cui) as [c|]; [|discriminate].
  injection Heq as Heq. apply (f_equal Concept.lui) in Heq.
  destruct (decide (flag = txt "P")); destruct c as [i p [l|] s r d t];
    cbn in Heq; try discriminate; injection Heq as Heq;
    apply (f_equal length) in Heq; rewrite length_app in Heq; cbn in Heq; lia.
Qed.

Lemma terms_add_changes terms cui sui lui : terms_add terms cui sui lui <> terms.
Proof.
  intros Heq. apply (f_equal (fun m => m !! lui)) in Heq.
  unfold terms_add in Heq. rewrite lookup_insert_eq in Heq.
  destruct (terms !! lui) as [t|]; [|discriminate].
  injection Heq as Heq. apply (f_equal Term.cui) in Heq.
  destruct t as [i [l|] s]; cbn in Heq; try discriminate.
  injection Heq as Heq.
  apply (f_equal length) in Heq; rewrite length_app in Heq; cbn in Heq; lia.
Qed.

Lemma strings_add_changes strings string lang cui sui lui :
  strings_add strings string lang cui sui lui <> strings.
Proof.
  intros Heq. apply (f_equal (fun m => m !! sui)) in Heq.
  unfold strings_add in Heq. rewrite lookup_insert_eq in Heq.
  destruct (strings !! sui) as [r|]; [|discriminate].
  injection Heq as Heq. apply (f_equal StringRecord.cui) in Heq.
  destruct r as [i s l g n m u [c|]]; cbn in Heq; try discriminate.
  injection Heq as Heq.
  apply (f_equal length) in Heq; rewrite length_app in Heq; cbn in Heq; lia.
Qed.

(** One step of each loop. For an MRCONSO record with the columns the
    three loops read and a surface string the length guard lets through:
    when the language set is empty, or holds the text of column 1
    exactly, each step adds the record to its aggregates, which changes
    them; when the set is not empty and does not hold that text, each
    step leaves its aggregates as they are. *)
Lemma language_filter_step (languages : gset text)
    (concepts : gmap text Concept.t) (terms : gmap text Term.t)
    (strings : gmap text StringRecord.t)
    (record cui lang flag lui sui raw string : text) :
  fields record !! 0 = Some cui ->
  fields record !! 1 = Some lang ->
  fields record !! 2 = Some flag ->
  fields record !! 3 = Some lui ->
  fields record !! 5 = Some sui ->
  fields record !! 14 = Some raw ->
  length_guard raw = Ok string ->
  (languages = ∅ \/ lang ∈ languages ->
     concepts_record languages concepts record
     = Ok (concepts_add concepts cui sui lui flag)
     /\ terms_record languages terms record = Ok (terms_add terms cui sui lui)
     /\ strings_record languages strings record
        = Ok (strings_add strings string lang cui sui lui))
  /\ (languages <> ∅ -> lang ∉ languages ->
        concepts_record languages concepts record = Ok concepts
        /\ terms_record languages terms record = Ok terms
        /\ strings_record languages strings record = Ok strings)
  /\ (concepts_add concepts cui sui lui flag <> concepts
      /\ terms_add terms cui sui lui <> terms
      /\ strings_add strings string lang cui sui lui <> strings).
Proof.
  intros H0 H1 H2 H3 H5 H14 Hguard.
  pose proof (rejected_eq languages (fields record) lang H1) as Hrej.
  unfold concepts_record, terms_record, strings_record, getitem.
  rewrite Hrej, H0, H1, H2, H3, H5, H14. cbn. rewrite Hguard. cbn.
  split; [|split].
  - intros Hin. rewrite bool_decide_eq_false_2; [done|].
    intros [Hne Hnotin]. by destruct Hin.
  - intros Hne Hnotin. by rewrite bool_decide_eq_true_2.
  - split; [apply concepts_add_changes|].
    split; [apply terms_add_changes | apply strings_add_changes].
Qed.

End LanguageFilter.

(** ** The normal form *)

Section Normalizer.
Context `{db : UnicodeDB} `{!UnicodeLaws db}.

Lemma isword_SPACE : isword SPACE = false.
Proof.
  destruct (isword SPACE) eqn:Hw; [|done].
  apply isword_not_isspace in Hw. by rewrite isspace_SPACE in Hw.
Qed.

Lemma punct_sub_keeps s :
  Forall (fun c => isword c = true \/ c = SPACE) s -> punct_sub s = s.
Proof.
  unfold punct_sub. induction 1 as [|c s Hc _ IH]; [done|].
  cbn. rewrite IH. f_equal. destruct Hc as [-> | ->]; [done|].
  by rewrite isword_SPACE.
Qed.

Lemma punct_sub_blanks s :
  Forall (fun c => isword c = false) s ->
  punct_sub s = replicate (length s) SPACE.
Proof.
  unfold punct_sub. induction 1 as [|c s Hc _ IH]; [done|].
  cbn. by rewrite IH, Hc.
Qed.

Lemma lower_blanks n : lower (replicate n SPACE) = replicate n SPACE.
Proof.
  induction n as [|n IH]; cbn; [apply lower_nil|].
  by rewrite (lower_SPACE [] (replicate n SPACE)), lower_nil, IH.
Qed.

Lemma split_ws_blanks n : split_ws (replicate n SPACE) = [].
Proof. induction n as [|n IH]; cbn; [done|]. by rewrite isspace_SPACE. Qed.

(** A word and what [split_ws] makes of it, alone or before a space. *)
Lemma split_ws_word w :
  w <> [] -> Forall (fun c => isspace c = false) w ->
  split_ws w = [w] /\ forall t, split_ws (w ++ SPACE :: t) = w :: split_ws t.
Proof.
  induction w as [|c w IH]; [done|]. intros _ Hw.
  apply Forall_cons in Hw as [Hc Hw].
  destruct w as [|c' w].
  - cbn. rewrite Hc. split; [done|]. intros t. by rewrite isspace_SPACE.
  - destruct (IH ltac:(done) Hw) as [IH1 IH2].
    pose proof Hw as Hw'. apply Forall_cons in Hw' as [Hc' _].
    split.
    + change (split_ws (c :: c' :: w)) with
        (if isspace c then split_ws (c' :: w)
         else if isspace c' then [c] :: split_ws (c' :: w)
         else match split_ws (c' :: w) with
              | x :: xs => (c :: x) :: xs
              | [] => [[c]]
              end).
      by rewrite Hc, Hc', IH1.
    + intros t.
      change (split_ws ((c :: c' :: w) ++ SPACE :: t)) with
        (if isspace c then split_ws ((c' :: w) ++ SPACE :: t)
         else if isspace c' then [c] :: split_ws ((c' :: w) ++ SPACE :: t)
         else match split_ws ((c' :: w) ++ SPACE :: t) with
              | x :: xs => (c :: x) :: xs
              | [] => [[c]]
              end).
      by rewrite Hc, Hc', IH2.
Qed.

Lemma join_cons_cons sep w w' ws :
  join sep (w :: w' :: ws) = w ++ sep ++ join sep (w' :: ws).
Proof. reflexivity. Qed.

Lemma split_ws_join ws :
  Forall (fun w => w <> [] /\ Forall (fun c => isspace c = false) w) ws ->
  split_ws (join [SPACE] ws) = ws.
Proof.
  induction 1 as [|w ws [Hne Hw] Hws IH]; [done|].
  destruct (split_ws_word w Hne Hw) as [H1 H2].
  destruct ws as [|w' ws]; [exact H1|].
  rewrite join_cons_cons. cbn [app]. by rewrite H2, IH.
Qed.

Lemma lower_join ws :
  lower (join [SPACE] ws) = join [SPACE] (lower <$> ws).
Proof.
  induction ws as [|w ws IH]; [apply lower_nil|].
  destruct ws as [|w' ws]; [done|].
  rewrite join_cons_cons. cbn [app]. rewrite lower_SPACE, IH. reflexivity.
Qed.

(** A string of word characters and single spaces that neither starts
    nor ends with a space is a list of words joined by single spaces. *)
Lemma words_decompose s :
  words_and_single_spaces s ->
  head s <> Some SPACE -> last s <> Some SPACE ->
  exists ws,
    s = join [SPACE] ws
    /\ Forall (fun w => w <> [] /\ Forall (fun c => isword c = true) w) ws.
Proof.
  remember (length s) as n eqn:Hn. revert s Hn.
  induction n as [n IH] using lt_wf_ind.
  intros s Hn [Hall Hsingle] Hhead Hlast.
  destruct s as [|c s]; [by exists []|].
  apply Forall_cons in Hall as [[Hc | ->] Hall]; [|done].
  destruct s as [|c' s].
  { exists [[c]]. split; [done|]. repeat constructor; done. }
  assert (forall i, (c' :: s) !! i = Some SPACE ->
                    (c' :: s) !! S i <> Some SPACE) as Hsingle'
    by (intros i; apply (Hsingle (S i))).
  destruct (decide (c' = SPACE)) as [-> | Hc'].
  - apply Forall_cons in Hall as [_ Hall].
    destruct s as [|c'' s]; [done|].
    destruct (IH (length (c'' :: s)) ltac:(cbn in *; lia) (c'' :: s) eq_refl)
      as (ws & Hjoin & Hws).
    + split; [done|]. intros i. apply (Hsingle' (S i)).
    + apply (Hsingle 1). reflexivity.
    + exact Hlast.
    + destruct ws as [|w ws]; [done|].
      exists ([c] :: w :: ws). split.
      * rewrite join_cons_cons, <- Hjoin. reflexivity.
      * constructor; [|done]. split; [done|]. by repeat constructor.
  - destruct (IH (length (c' :: s)) ltac:(cbn in *; lia) (c' :: s) eq_refl)
      as (ws & Hjoin & Hws).
    + done.
    + cbn. congruence.
    + exact Hlast.
    + destruct ws as [|w ws]; [done|].
      apply Forall_cons in Hws as [[Hne Hw] Hws].
      exists ((c :: w) :: ws). split.
      * rewrite Hjoin. by destruct ws.
      * constructor; [|done]. split; [done|]. by constructor.
Qed.

(** C8, as the code has it. The normal form of a string of word
    characters and single spaces that neither starts nor ends with a
    space is the string in lower case; the normal form of a string
    without word characters is empty and counts no word. *)
Theorem normal_form_round_trip (s punct : text) :
  words_and_single_spaces s ->
  head s <> Some SPACE ->
  last s <> Some SPACE ->
  Forall (fun c => isword c = false) punct ->
  lowerwords s = lower s
  /\ lowerwords punct = []
  /\ length (split_ws (lowerwords punct)) = 0.
Proof.
  intros Hs Hhead Hlast Hpunct. split.
  - unfold lowerwords. rewrite (punct_sub_keeps s) by apply Hs.
    destruct (words_decompose s Hs Hhead Hlast) as (ws & -> & Hws).
    rewrite lower_join. f_equal. apply split_ws_join.
    apply Forall_fmap. eapply Forall_impl; [exact Hws|].
    intros w [Hne Hw]. cbn. apply lower_word; [done|].
    eapply Forall_impl; [exact Hw|]. apply isword_not_isspace.
  - assert (lowerwords punct = []) as ->; [|done].
    unfold lowerwords.
    by rewrite (punct_sub_blanks punct Hpunct), lower_blanks, split_ws_blanks.
Qed.

End Normalizer.

(** ** The ASCII instance and the sample directory *)

Lemma ascii_db_laws : UnicodeLaws ascii_db.
Proof.
  split.
  - reflexivity.
  - intros c. cbn. unfold ascii_isword, ascii_isspace. lia.
  - reflexivity.
  - intros a b. cbn. unfold ascii_lower. by rewrite fmap_app.
  - intros w Hne Hw. cbn in *. unfold ascii_lower. split.
    + by destruct w.
    + apply Forall_fmap. eapply Forall_impl; [exact Hw|].
      intros c. cbn. unfold ascii_isspace.
      destruct ((65 <=? c)%Z && (c <=? 90)%Z) eqn:Hupper; lia.
Qed.

Example sample_run :
  createdb (H:=ascii_db) sample_classify sample_meta [txt "ENG"] sample_db
    true true true None
  = Ok (sample_concepts (Some [txt "A greeting."]), sample_strings,
        <[txt "L001" := Term.mk (Some (txt "L001")) (Some [txt "C001"])
                          (Some [txt "S001"])]>
          (<[txt "L002" := Term.mk (Some (txt "L002")) (Some [txt "C001"])
                             (Some [txt "S002"])]> ∅)).
Proof. vm_compute. reflexivity. Qed.

(** The same run against a database no server answers for: the three
    sets are built, then the request for the index raises. *)
Example sample_run_unreachable_server :
  createdb (H:=ascii_db) sample_classify sample_meta [txt "ENG"]
    unreachable_db true true true None
  = Err (PyMongoError (txt "ServerSelectionTimeoutError")).
Proof. vm_compute. reflexivity. Qed.

Example sample_run_unmapped_language :
  createdb (H:=ascii_db) sample_classify sample_meta [txt "ENG"; txt "XXX"]
    sample_db true true true None
  = Err (KeyError (txt "Not all languages you passed are valid.")).
Proof. vm_compute. reflexivity. Qed.

Example language_filter_is_case_sensitive :
  _create_strings (H:=ascii_db) sample_mrconso {[txt "eng"]} = Ok ∅.
Proof. vm_compute. reflexivity. Qed.

(** C1 on the sample relation: the concept of column 4, [C002], gets the
    CUI of column 0, [C001]. *)
Lemma mrrel_record_appends_witness :
  exists concepts',
    mrrel_record (H:=ascii_db) ∅ sample_relation = Ok concepts'
    /\ relations_of concepts' (txt "C002") (txt "parent")
       = relations_of ∅ (txt "C002") (txt "parent") ++ [txt "C001"]
    /\ forall cui name, (cui, name) <> (txt "C002", txt "parent") ->
         relations_of concepts' cui name = relations_of ∅ cui name.
Proof.
  apply (mrrel_record_appends (H:=ascii_db) ∅ sample_relation
           (txt "C002") (txt "PAR") (txt "parent") (txt "C001"));
    vm_compute; reflexivity.
Defined.

(** C1 as stated fails on the sample relation, whose column 0 is [C001],
    code [PAR] and column 4 [C002]: the pass leaves the list ["parent"] of
    [C001] empty and puts [C001] in the list ["parent"] of [C002]. *)
Lemma relation_subject_is_column_4 :
  relations_after (H:=ascii_db) [sample_relation] (txt "C001") (txt "parent")
  = Ok []
  /\ relations_after (H:=ascii_db) [sample_relation] (txt "C001") (txt "parent")
     <> Ok [txt "C002"]
  /\ relations_after (H:=ascii_db) [sample_relation] (txt "C002") (txt "parent")
     = Ok [txt "C001"].
Proof.
  split; [vm_compute; reflexivity|].
  split; [vm_compute; discriminate | vm_compute; reflexivity].
Qed.

(** The steps on the first record of the sample and the language set
    [{ENG}]. *)
Example language_filter_step_sample :
  let record := line "C001|ENG|P|L001|PF|S001|Y|A001||M001|D001|MSH|MH|D001|Hello, World!|0|N||" in
  let languages : gset text := {[txt "ENG"]} in
  let cui := txt "C001" in let lang := txt "ENG" in let flag := txt "P" in
  let lui := txt "L001" in let sui := txt "S001" in
  let string := txt "Hello, World!" in
  (languages = ∅ \/ lang ∈ languages ->
     concepts_record (H:=ascii_db) languages ∅ record
     = Ok (concepts_add ∅ cui sui lui flag)
     /\ terms_record (H:=ascii_db) languages ∅ record
        = Ok (terms_add ∅ cui sui lui)
     /\ strings_record (H:=ascii_db) languages ∅ record
        = Ok (strings_add (H:=ascii_db) ∅ string lang cui sui lui))
  /\ (languages <> ∅ -> lang ∉ languages ->
        concepts_record (H:=ascii_db) languages ∅ record = Ok ∅
        /\ terms_record (H:=ascii_db) languages ∅ record = Ok ∅
        /\ strings_record (H:=ascii_db) languages ∅ record = Ok ∅)
  /\ (concepts_add ∅ cui sui lui flag <> ∅
      /\ terms_add ∅ cui sui lui <> ∅
      /\ strings_add (H:=ascii_db) ∅ string lang cui sui lui <> ∅).
Proof.
  intros record languages cui lang flag lui sui string.
  apply (language_filter_step (H:=ascii_db) languages ∅ ∅ ∅ record cui lang
           flag lui sui string string);
    vm_compute; reflexivity.
Qed.

(** C3 on the sample: the record of [S001]. *)
Lemma stored_strings_bounded_witness :
  exists s, StringRecord.string sample_S001 = Some s /\ bounded_text s.
Proof.
  apply (stored_strings_bounded (H:=ascii_db) sample_mrconso {[txt "ENG"]}
           sample_strings (txt "S001") sample_S001);
    vm_compute; reflexivity.
Defined.

(** C5 on the sample: the preferred LUI of [C001]. *)
Lemma preferred_lui_in_lui_list_witness :
  exists l,
    Concept.lui (sample_C001 (Some [txt "A greeting."])) = Some l
    /\ txt "L001" ∈ l.
Proof.
  apply (preferred_lui_in_lui_list (H:=ascii_db) sample_classify sample_meta
           true true true {[txt "ENG"]} None
           (sample_concepts (Some [txt "A greeting."])) (txt "C001")
           (sample_C001 (Some [txt "A greeting."])) (txt "L001"));
    vm_compute; reflexivity.
Defined.

(** C6 on a relation record with the code [ZZZ]. *)
Lemma unknown_relation_code_fatal_witness :
  (RELATIONMAPPING !! txt "ZZZ" = None ->
     mrrel_record (H:=ascii_db) ∅ sample_unknown_relation
     = Err (KeyError (txt "ZZZ"))
     /\ forall before after start,
          for_each (mrrel_record (H:=ascii_db)) start before = Ok ∅ ->
          process_mrrel (H:=ascii_db)
            (before ++ sample_unknown_relation :: after) start
          = Err (KeyError (txt "ZZZ")))
  /\ (forall rel, RELATIONMAPPING !! txt "ZZZ" = Some rel ->
        exists concepts',
          mrrel_record (H:=ascii_db) ∅ sample_unknown_relation = Ok concepts').
Proof.
  apply (unknown_relation_code_fatal (H:=ascii_db) ∅ sample_unknown_relation
           (txt "C002") (txt "ZZZ"));
    vm_compute; reflexivity.
Defined.

Example unknown_relation_code_stops_the_pass :
  process_mrrel (H:=ascii_db)
    [sample_relation; sample_unknown_relation; sample_relation] ∅
  = Err (KeyError (txt "ZZZ")).
Proof. vm_compute. reflexivity. Qed.

(** C9 on the sample, read with the empty language set. *)
Lemma empty_languages_no_definitions_witness :
  _create_concepts (H:=ascii_db) sample_classify sample_meta false true true
    ∅ None = Ok (sample_concepts None)
  /\ (forall cui c, sample_concepts None !! cui = Some c ->
        Concept.definition c = None)
  /\ (forall split, rejected ∅ split = Ok false).
Proof.
  apply (empty_languages_no_definitions (H:=ascii_db) sample_classify
           sample_meta true true None (sample_concepts None)).
  vm_compute. reflexivity.
Defined.

(** The steps on the sample relation and semantic type, read into an
    empty table. *)
Example enrichment_step_sample :
  mrrel_record (H:=ascii_db) ∅ sample_relation
  = Ok (<[txt "C002" := only_rel (txt "parent") (txt "C001")]> ∅)
  /\ mrsty_record (H:=ascii_db) ∅ sample_semantic_type
     = Ok (<[txt "C001" := only_semtype (txt "B2.2.1.2.1")]> ∅).
Proof.
  apply (enrichment_step_creates_concept (H:=ascii_db) ∅
           sample_relation (txt "C002") (txt "PAR") (txt "parent") (txt "C001")
           sample_semantic_type (txt "C001") (txt "B2.2.1.2.1"));
    vm_compute; reflexivity.
Qed.

(** The returned set holds a key the concept file never had. *)
Example enrichment_key_not_in_mrconso :
  (fun concepts => concepts !! txt "C002")
    <$> _create_concepts (H:=ascii_db) sample_classify sample_meta
          false true false ∅ None
  = Ok (Some (only_rel (txt "parent") (txt "C001"))).
Proof. vm_compute. reflexivity. Qed.

(** C8 on ["Hello World"] and a string of punctuation. *)
Lemma normal_form_round_trip_witness :
  lowerwords (H:=ascii_db) (txt "Hello World")
  = lower (UnicodeDB:=ascii_db) (txt "Hello World")
  /\ lowerwords (H:=ascii_db) (txt "?!,") = []
  /\ length (split_ws (H:=ascii_db) (lowerwords (H:=ascii_db) (txt "?!,"))) = 0.
Proof.
  apply (normal_form_round_trip (db:=ascii_db) (UnicodeLaws0:=ascii_db_laws)
           (txt "Hello World") (txt "?!,")).
  - split.
    + repeat (constructor; [first [left; reflexivity | right; reflexivity]|]).
      constructor.
    + intros i. do 12 (destruct i as [|i]; [vm_compute; congruence|]).
      vm_compute. congruence.
  - vm_compute. congruence.
  - vm_compute. congruence.
  - repeat (constructor; [reflexivity|]). constructor.
Defined.

(** C8 as stated fails on a space followed by a letter: every character
    is a word character or a single space, and the normal form has lost
    the space that the string in lower case keeps. *)
Lemma lowerwords_trims_leading_space :
  words_and_single_spaces (H:=ascii_db) (txt " a")
  /\ lowerwords (H:=ascii_db) (txt " a") = txt "a"
  /\ lowerwords (H:=ascii_db) (txt " a")
     <> lower (UnicodeDB:=ascii_db) (txt " a").
Proof.
  split; [|split].
  - split.
    + repeat (constructor; [first [left; reflexivity | right; reflexivity]|]).
      constructor.
    + intros i. do 3 (destruct i as [|i]; [vm_compute; congruence|]).
      vm_compute. congruence.
  - vm_compute. reflexivity.
  - vm_compute. discriminate.
Qed.

(** A surface string of 1200 letters is stored cut to 1000; one whose
    byte 1000 falls inside a character stops the pass. *)
Example long_string_is_cut :
  (fun strings => strings !! txt "S009" ≫= StringRecord.string)
    <$> _create_strings (H:=ascii_db)
          [record_with_string (replicate 1200 97%Z)] ∅
  = Ok (Some (replicate 1000 97%Z)).
Proof. vm_compute. reflexivity. Qed.

Example cut_inside_character_stops_the_pass :
  _create_strings (H:=ascii_db)
    [record_with_string (replicate 999 97%Z ++ [233%Z; 97%Z])] ∅
  = Err UnicodeDecodeError.
Proof. vm_compute. reflexivity. Qed.

(** * Further properties of the passes *)

(** ** Loops that collect *)

Lemma for_each_app {S : Type} (body : S -> text -> result S)
    (l1 l2 : list text) (st : S) :
  for_each body st (l1 ++ l2)
  = st' ← for_each body st l1; for_each body st' l2.
Proof.
  revert st. induction l1 as [|r l1 IH]; intros st; [done|].
  cbn [for_each app]. destruct (body st r) as [st1|e]; [|done]. apply IH.
Qed.

(** When every successful run of the body appends to an observed list
    what the record contributes, a successful loop has appended the
    contributions of all lines in order. *)
Lemma for_each_collect {S A : Type} (obs : S -> list A)
    (contrib : text -> list A) (body : S -> text -> result S)
    (lines : list text) :
  (forall st r st', body st r = Ok st' -> obs st' = obs st ++ contrib r) ->
  forall st st', for_each body st lines = Ok st' ->
  obs st' = obs st ++ (lines ≫= contrib).
Proof.
  intros Hbody. induction lines as [|r lines IH]; intros st st'.
  - intros [= <-]. by rewrite app_nil_r.
  - cbn [for_each]. intros (st1 & H1 & H2)%bind_Ok_inv.
    rewrite bind_cons, (IH _ _ H2), (Hbody _ _ _ H1). by rewrite app_assoc.
Qed.

Lemma list_bind_bind {A B C : Type} (f : A -> list B) (g : B -> list C)
    (l : list A) :
  (l ≫= f) ≫= g = l ≫= (fun x => f x ≫= g).
Proof.
  induction l as [|x l IH]; [done|].
  by rewrite !bind_cons, bind_app, IH.
Qed.

Lemma pick_singleton (key_col val_col : nat) (key : text) (split : list text) :
  [split] ≫= pick key_col val_col key = pick key_col val_col key split.
Proof. rewrite bind_cons. apply app_nil_r. Qed.

(** ** The term aggregates *)

Section TermFacts.
Context `{UnicodeDB}.

Lemma terms_record_cases languages terms record terms' :
  terms_record languages terms record = Ok terms' ->
  (accepted languages record = [] /\ terms' = terms)
  \/ exists cui sui lui,
       accepted languages record = [fields record]
       /\ fields record !! 0 = Some cui
       /\ fields record !! 5 = Some sui
       /\ fields record !! 3 = Some lui
       /\ terms' = terms_add terms cui sui lui.
Proof.
  unfold terms_record, accepted.
  intros (skip & Hskip & Hrow)%bind_Ok_inv. rewrite Hskip. destruct skip.
  - left. by injection Hrow as <-.
  - right. apply bind_Ok_inv in Hrow as (cui & H0%getitem_Ok & Hrow).
    apply bind_Ok_inv in Hrow as (sui & H5%getitem_Ok & Hrow).
    apply bind_Ok_inv in Hrow as (lui & H3%getitem_Ok & Hrow).
    injection Hrow as <-. eauto 10.
Qed.

Lemma terms_record_collect languages lui terms record terms' :
  terms_record languages terms record = Ok terms' ->
  term_cuis terms' lui
  = term_cuis terms lui ++ (accepted languages record ≫= pick 3 0 lui)
  /\ term_suis terms' lui
     = term_suis terms lui ++ (accepted languages record ≫= pick 3 5 lui).
Proof.
  intros [[-> ->] | (cui & sui & l & -> & H0 & H5 & H3 & ->)]%terms_record_cases.
  - by rewrite !app_nil_r.
  - rewrite !pick_singleton. unfold pick. rewrite H0, H3, H5.
    unfold term_cuis, term_suis, terms_add.
    destruct (decide (l = lui)) as [-> | Hne].
    + by rewrite lookup_insert_eq.
    + rewrite lookup_insert_ne by done. by rewrite !app_nil_r.
Qed.

Lemma terms_record_nonempty languages terms record terms' :
  map_Forall (fun _ t => field_list (Term.cui t) <> []) terms ->
  terms_record languages terms record = Ok terms' ->
  map_Forall (fun _ t => field_list (Term.cui t) <> []) terms'.
Proof.
  intros Hinv [[_ ->] | (cui & sui & l & _ & _ & _ & _ & ->)]%terms_record_cases;
    [done|].
  unfold terms_add. apply map_Forall_insert_2; [|done]. cbn.
  by destruct (field_list _).
Qed.

(** X1. The lists of a term in the set [_create_terms] returns are the
    columns 0 and 5 of the accepted records whose column 3 is the key,
    in the order of the file, duplicates kept; the key is in the set
    exactly when there is such a record. *)
Theorem terms_collect (mrconso : list text) (languages : gset text)
    (terms : gmap text Term.t) (lui : text) :
  _create_terms mrconso languages = Ok terms ->
  term_cuis terms lui = accepted_records languages mrconso ≫= pick 3 0 lui
  /\ term_suis terms lui = accepted_records languages mrconso ≫= pick 3 5 lui
  /\ (is_Some (terms !! lui) <-> term_cuis terms lui <> []).
Proof.
  unfold _create_terms, accepted_records.
  intros (n & _ & Hloop)%bind_Ok_inv.
  rewrite !list_bind_bind. split; [|split].
  - rewrite (for_each_collect (fun ts => term_cuis ts lui)
               (fun r => accepted languages r ≫= pick 3 0 lui) _ _
               (fun st r st' Hr =>
                  proj1 (terms_record_collect languages lui st r st' Hr))
               _ _ Hloop).
    unfold term_cuis. by rewrite lookup_empty.
  - rewrite (for_each_collect (fun ts => term_suis ts lui)
               (fun r => accepted languages r ≫= pick 3 5 lui) _ _
               (fun st r st' Hr =>
                  proj2 (terms_record_collect languages lui st r st' Hr))
               _ _ Hloop).
    unfold term_suis. by rewrite lookup_empty.
  - split.
    + intros [t Ht]. unfold term_cuis. rewrite Ht. cbn.
      revert Hloop lui t Ht.
      apply (for_each_invariant
               (map_Forall (fun _ t => field_list (Term.cui t) <> []))).
      * intros st r st'. apply terms_record_nonempty.
      * apply map_Forall_empty.
    + unfold term_cuis. destruct (terms !! lui); [by eexists | done].
Qed.

End TermFacts.

Lemma terms_collect_witness :
  term_cuis sample_terms (txt "L001")
  = accepted_records (H:=ascii_db) {[txt "ENG"]} sample_mrconso
      ≫= pick 3 0 (txt "L001")
  /\ term_suis sample_terms (txt "L001")
     = accepted_records (H:=ascii_db) {[txt "ENG"]} sample_mrconso
         ≫= pick 3 5 (txt "L001")
  /\ (is_Some (sample_terms !! txt "L001")
      <-> term_cuis sample_terms (txt "L001") <> []).
Proof.
  apply (terms_collect (H:=ascii_db) sample_mrconso {[txt "ENG"]}
           sample_terms (txt "L001")).
  vm_compute. reflexivity.
Defined.

(** ** What the concept passes collect *)

(** When every successful run of the body overwrites an observed value
    with the last contribution of the record, if there is one, a
    successful loop leaves the last contribution of the file. *)
Lemma for_each_last {S A : Type} (obs : S -> option A)
    (contrib : text -> list A) (body : S -> text -> result S)
    (lines : list text) :
  (forall st r st', body st r = Ok st' ->
     obs st' = match last (contrib r) with Some y => Some y | None => obs st end) ->
  forall st st', for_each body st lines = Ok st' ->
  obs st' = match last (lines ≫= contrib) with
            | Some y => Some y
            | None => obs st
            end.
Proof.
  intros Hbody. induction lines as [|r lines IH]; intros st st'.
  - intros [= <-]. done.
  - cbn [for_each]. intros (st1 & H1 & H2)%bind_Ok_inv.
    rewrite bind_cons, last_app, (IH _ _ H2), (Hbody _ _ _ H1).
    by destruct (last (lines ≫= contrib)).
Qed.

Section ConceptCollect.
Context `{UnicodeDB}.
Variable classify : text -> text.

Lemma concepts_record_cases languages concepts record concepts' :
  concepts_record languages concepts record = Ok concepts' ->
  (accepted languages record = [] /\ concepts' = concepts)
  \/ exists cui sui lui flag,
       accepted languages record = [fields record]
       /\ fields record !! 0 = Some cui
       /\ fields record !! 5 = Some sui
       /\ fields record !! 3 = Some lui
       /\ fields record !! 2 = Some flag
       /\ concepts' = concepts_add concepts cui sui lui flag.
Proof.
  unfold concepts_record, accepted.
  intros (skip & Hskip & Hrow)%bind_Ok_inv. rewrite Hskip. destruct skip.
  - left. by injection Hrow as <-.
  - right. apply bind_Ok_inv in Hrow as (cui & H0%getitem_Ok & Hrow).
    apply bind_Ok_inv in Hrow as (sui & H5%getitem_Ok & Hrow).
    apply bind_Ok_inv in Hrow as (lui & H3%getitem_Ok & Hrow).
    apply bind_Ok_inv in Hrow as (flag & H2%getitem_Ok & Hrow).
    injection Hrow as <-. eauto 12.
Qed.

(** The aggregate [concepts_add] stores. *)
Lemma concepts_add_lookup concepts cui sui lui flag :
  let c := default Concept.empty (concepts !! cui) in
  concepts_add concepts cui sui lui flag !! cui
  = Some (Concept.mk (Some cui)
            (if decide (flag = txt "P") then Some lui else Concept.preferred c)
            (Some (field_list (Concept.lui c) ++ [lui]))
            (Some (field_list (Concept.sui c) ++ [sui]))
            (Concept.rel c) (Concept.definition c) (Concept.semtype c)).
Proof.
  intros c. unfold concepts_add. rewrite lookup_insert_eq. fold c.
  by destruct (decide (flag = txt "P")); destruct c.
Qed.

Lemma concepts_add_lookup_ne concepts cui sui lui flag k :
  cui <> k -> concepts_add concepts cui sui lui flag !! k = concepts !! k.
Proof. intros Hne. unfold concepts_add. by rewrite lookup_insert_ne. Qed.

Lemma concepts_record_collect languages k concepts record concepts' :
  concepts_record languages concepts record = Ok concepts' ->
  concept_luis concepts' k
  = concept_luis concepts k ++ (accepted languages record ≫= pick 0 3 k)
  /\ concept_suis concepts' k
     = concept_suis concepts k ++ (accepted languages record ≫= pick 0 5 k)
  /\ Concept.preferred (default Concept.empty (concepts' !! k))
     = match last (accepted languages record ≫= pick_preferred k) with
       | Some y => Some y
       | None => Concept.preferred (default Concept.empty (concepts !! k))
       end.
Proof.
  intros [[-> ->] | (cui & sui & lui & flag & -> & H0 & H5 & H3 & H2 & ->)]
    %concepts_record_cases.
  - by rewrite !app_nil_r.
  - rewrite !pick_singleton, bind_cons, app_nil_r.
    unfold pick, pick_preferred. rewrite H0, H2, H3, H5.
    unfold concept_luis, concept_suis.
    destruct (decide (cui = k)) as [-> | Hne].
    + rewrite concepts_add_lookup.
      destruct (decide (flag = txt "P")) as [HP|HP].
      * rewrite decide_True by done. done.
      * rewrite decide_False by (by intros [_ ?]). done.
    + rewrite concepts_add_lookup_ne by done. rewrite !app_nil_r.
      rewrite decide_False; [done|]. by intros [? _].
Qed.

(** Every aggregate of the MRCONSO loop carries its key and a LUI. *)
Lemma concepts_record_keyed languages concepts record concepts' :
  map_Forall (fun k c => Concept._id c = Some k
                         /\ field_list (Concept.lui c) <> []) concepts ->
  concepts_record languages concepts record = Ok concepts' ->
  map_Forall (fun k c => Concept._id c = Some k
                         /\ field_list (Concept.lui c) <> []) concepts'.
Proof.
  intros Hinv
    [[_ ->] | (cui & sui & lui & flag & _ & _ & _ & _ & _ & ->)]
    %concepts_record_cases; [done|].
  intros k c. destruct (decide (cui = k)) as [-> | Hne].
  - rewrite concepts_add_lookup. intros [= <-]. cbn. split; [done|].
    by destruct (field_list _).
  - rewrite concepts_add_lookup_ne by done. apply Hinv.
Qed.

Lemma keeps_mrconso_fields_refl concepts : keeps_mrconso_fields concepts concepts.
Proof. intros cui. split; [done|]. by repeat split. Qed.

(** An update of one aggregate that leaves the four fields alone. *)
Lemma keeps_mrconso_fields_update (f : Concept.t -> Concept.t)
    (base concepts : gmap text Concept.t) (k : text) :
  (forall c, same_mrconso_fields c (f c)) ->
  keeps_mrconso_fields base concepts ->
  keeps_mrconso_fields base
    (<[k := f (default Concept.empty (concepts !! k))]> concepts).
Proof.
  intros Hf Hkeep cui. destruct (Hkeep cui) as [Hdom Hsame].
  destruct (decide (k = cui)) as [-> | Hne].
  - rewrite lookup_insert_eq. split; [by eexists|]. cbn.
    destruct (Hf (default Concept.empty (concepts !! cui)))
      as (F1 & F2 & F3 & F4).
    destruct Hsame as (S1 & S2 & S3 & S4).
    unfold same_mrconso_fields. by rewrite F1, F2, F3, F4.
  - by rewrite lookup_insert_ne.
Qed.

Lemma process_mrdef_keeps mrdef base concepts languages preprocessor concepts' :
  keeps_mrconso_fields base concepts ->
  process_mrdef classify mrdef concepts languages preprocessor = Ok concepts' ->
  keeps_mrconso_fields base concepts'.
Proof.
  intros Hinv. unfold process_mrdef.
  intros (iso & _ & Hrun)%bind_Ok_inv.
  apply bind_Ok_inv in Hrun as (n & _ & Hrun).
  apply bind_Ok_inv in Hrun as (cs & Hloop & Hrun).
  injection Hrun as <-. rewrite relist_definitions_id.
  revert Hloop. apply for_each_invariant; [|done].
  clear -classify. intros st record st' Hst. unfold mrdef_record.
  intros (pk & _ & Hrow)%bind_Ok_inv.
  apply bind_Ok_inv in Hrow as (definition & _ & Hrow).
  case_bool_decide; injection Hrow as <-; [done|].
  unfold definition_add.
  by apply (keeps_mrconso_fields_update (Concept.set_definition _)).
Qed.

Lemma process_mrrel_keeps mrrel base concepts concepts' :
  keeps_mrconso_fields base concepts ->
  process_mrrel mrrel concepts = Ok concepts' ->
  keeps_mrconso_fields base concepts'.
Proof.
  intros Hinv. unfold process_mrrel. intros (n & _ & Hloop)%bind_Ok_inv.
  revert Hloop. apply for_each_invariant; [|done].
  clear. intros st record st' Hst. unfold mrrel_record.
  intros (source & _ & Hrow)%bind_Ok_inv.
  apply bind_Ok_inv in Hrow as (dest & _ & Hrow).
  apply bind_Ok_inv in Hrow as (code & _ & Hrow).
  apply bind_Ok_inv in Hrow as (rel & _ & Hrow).
  rewrite rel_add_eq in Hrow. injection Hrow as <-.
  by apply (keeps_mrconso_fields_update (Concept.set_rel _)).
Qed.

Lemma process_mrsty_keeps mrsty base concepts concepts' :
  keeps_mrconso_fields base concepts ->
  process_mrsty mrsty concepts = Ok concepts' ->
  keeps_mrconso_fields base concepts'.
Proof.
  intros Hinv. unfold process_mrsty. intros (n & _ & Hloop)%bind_Ok_inv.
  revert Hloop. apply for_each_invariant; [|done].
  clear. intros st record st' Hst. unfold mrsty_record.
  intros (cui & _ & Hrow)%bind_Ok_inv.
  apply bind_Ok_inv in Hrow as (semantic_type & _ & Hrow).
  injection Hrow as <-. unfold semtype_add.
  by apply (keeps_mrconso_fields_update (Concept.set_semtype _)).
Qed.

Lemma stages_keep (path : meta) (pd pr ps : bool) (languages : gset text)
    (preprocessor : option (text -> text))
    (c0 c1 c2 concepts : gmap text Concept.t) :
  (if pd then process_mrdef classify (MRDEF path) c0 languages preprocessor
   else Ok c0) = Ok c1 ->
  (if pr then process_mrrel (MRREL path) c1 else Ok c1) = Ok c2 ->
  (if ps then process_mrsty (MRSTY path) c2 else Ok c2) = Ok concepts ->
  keeps_mrconso_fields c0 concepts.
Proof.
  intros H1 H2 H3.
  assert (keeps_mrconso_fields c0 c1) as K1.
  { destruct pd.
    - eapply process_mrdef_keeps; [apply keeps_mrconso_fields_refl|done].
    - injection H1 as <-. apply keeps_mrconso_fields_refl. }
  assert (keeps_mrconso_fields c0 c2) as K2.
  { destruct pr; [|by injection H2 as <-]. by eapply process_mrrel_keeps. }
  destruct ps; [|by injection H3 as <-]. by eapply process_mrsty_keeps.
Qed.

(** X2. A run of [_create_concepts] that returns, whatever passes are
    enabled, returns every concept of the run without enrichment, each
    with the ["_id"], ["preferred"], ["lui"] and ["sui"] it has there, and
    gives none of these fields to a concept an enrichment pass adds. *)
Theorem enrichment_keeps_mrconso_fields (path : meta)
    (process_definitions process_relations process_semantic_types : bool)
    (languages : gset text) (preprocessor : option (text -> text))
    (concepts : gmap text Concept.t) :
  _create_concepts classify path process_definitions process_relations
    process_semantic_types languages preprocessor = Ok concepts ->
  exists base,
    _create_concepts classify path false false false languages preprocessor
    = Ok base
    /\ keeps_mrconso_fields base concepts.
Proof.
  intros Hrun.
  destruct (create_concepts_stages classify _ _ _ _ _ _ _ Hrun)
    as (c0 & c1 & c2 & H0 & H1 & H2 & H3).
  exists c0. split.
  - revert Hrun. unfold _create_concepts.
    destruct (count_lines (MRCONSO path)) as [n|]; [|done]. cbn.
    by rewrite H0.
  - by eapply stages_keep.
Qed.

(** X3. In the set [_create_concepts] returns, whatever passes are
    enabled, the ["lui"] and ["sui"] lists of a concept are the columns 3
    and 5 of the accepted MRCONSO records whose column 0 is its key, in
    the order of the file, duplicates kept; ["preferred"] is column 3 of
    the last of these records whose column 2 is ["P"], and is missing
    when there is none; ["_id"] is the key when there is such a record
    and is missing otherwise. *)
Theorem concepts_collect (path : meta)
    (process_definitions process_relations process_semantic_types : bool)
    (languages : gset text) (preprocessor : option (text -> text))
    (concepts : gmap text Concept.t) (cui : text) :
  _create_concepts classify path process_definitions process_relations
    process_semantic_types languages preprocessor = Ok concepts ->
  concept_luis concepts cui
  = accepted_records languages (MRCONSO path) ≫= pick 0 3 cui
  /\ concept_suis concepts cui
     = accepted_records languages (MRCONSO path) ≫= pick 0 5 cui
  /\ Concept.preferred (default Concept.empty (concepts !! cui))
     = last (accepted_records languages (MRCONSO path) ≫= pick_preferred cui)
  /\ Concept._id (default Concept.empty (concepts !! cui))
     = if decide (concept_luis concepts cui = []) then None else Some cui.
Proof.
  intros Hrun.
  destruct (create_concepts_stages classify _ _ _ _ _ _ _ Hrun)
    as (c0 & c1 & c2 & H0 & H1 & H2 & H3).
  destruct (stages_keep _ _ _ _ _ _ _ _ _ _ H1 H2 H3 cui)
    as [_ (Sid & Spref & Slui & Ssui)].
  unfold concept_luis, concept_suis, accepted_records.
  rewrite Sid, Spref, Slui, Ssui, !list_bind_bind.
  assert (forall k, c0 !! k = None ->
            default Concept.empty (c0 !! k) = Concept.empty) as Hnone
    by (by intros k ->).
  split; [|split; [|split]].
  - pose proof (for_each_collect (fun cs => concept_luis cs cui)
               (fun r => accepted languages r ≫= pick 0 3 cui) _ _
               (fun st r st' Hr =>
                  proj1 (concepts_record_collect languages cui st r st' Hr))
               _ _ H0) as Hc.
    unfold concept_luis in Hc. rewrite lookup_empty in Hc. exact Hc.
  - pose proof (for_each_collect (fun cs => concept_suis cs cui)
               (fun r => accepted languages r ≫= pick 0 5 cui) _ _
               (fun st r st' Hr =>
                  proj1 (proj2 (concepts_record_collect languages cui
                                  st r st' Hr)))
               _ _ H0) as Hc.
    unfold concept_suis in Hc. rewrite lookup_empty in Hc. exact Hc.
  - pose proof (for_each_last
               (fun cs => Concept.preferred (default Concept.empty (cs !! cui)))
               (fun r => accepted languages r ≫= pick_preferred cui) _ _
               (fun st r st' Hr =>
                  proj2 (proj2 (concepts_record_collect languages cui
                                  st r st' Hr)))
               _ _ H0) as Hc.
    cbv beta in Hc. rewrite Hc, lookup_empty. cbn. by destruct (last _).
  - destruct (c0 !! cui) as [c|] eqn:Hc; cbn.
    + assert (map_Forall (fun k c => Concept._id c = Some k
                            /\ field_list (Concept.lui c) <> []) c0) as Hkeyed.
      { revert H0. apply for_each_invariant; [|apply map_Forall_empty].
        intros st r st'. apply concepts_record_keyed. }
      destruct (Hkeyed cui c Hc) as [-> Hl]. by rewrite decide_False.
    + by rewrite decide_True.
Qed.

End ConceptCollect.

Lemma enrichment_keeps_mrconso_fields_witness :
  exists base,
    _create_concepts (H:=ascii_db) sample_classify sample_meta
      false false false {[txt "ENG"]} None = Ok base
    /\ keeps_mrconso_fields base (sample_concepts (Some [txt "A greeting."])).
Proof.
  apply (enrichment_keeps_mrconso_fields (H:=ascii_db) sample_classify
           sample_meta true true true {[txt "ENG"]} None
           (sample_concepts (Some [txt "A greeting."]))).
  vm_compute. reflexivity.
Defined.

Lemma concepts_collect_witness :
  let concepts := sample_concepts (Some [txt "A greeting."]) in
  let records := accepted_records (H:=ascii_db) {[txt "ENG"]} sample_mrconso in
  concept_luis concepts (txt "C001") = records ≫= pick 0 3 (txt "C001")
  /\ concept_suis concepts (txt "C001") = records ≫= pick 0 5 (txt "C001")
  /\ Concept.preferred (default Concept.empty (concepts !! txt "C001"))
     = last (records ≫= pick_preferred (txt "C001"))
  /\ Concept._id (default Concept.empty (concepts !! txt "C001"))
     = if decide (concept_luis concepts (txt "C001") = []) then None
       else Some (txt "C001").
Proof.
  apply (concepts_collect (H:=ascii_db) sample_classify sample_meta
           true true true {[txt "ENG"]} None
           (sample_concepts (Some [txt "A greeting."])) (txt "C001")).
  vm_compute. reflexivity.
Defined.

(** ** What the enrichment passes collect *)

Lemma list_bind_fmap {A B C : Type} (f : A -> B) (g : B -> list C)
    (l : list A) :
  (f <$> l) ≫= g = l ≫= (fun x => g (f x)).
Proof.
  induction l as [|x l IH]; [done|].
  by rewrite fmap_cons, !bind_cons, IH.
Qed.

Lemma mapM_Ok_inv {A B : Type} (f : A -> result B) (l : list A) (ys : list B) :
  mapM f l = Ok ys -> Forall2 (fun x y => f x = Ok y) l ys.
Proof.
  revert ys. induction l as [|x l IH]; intros ys.
  - intros [= <-]. constructor.
  - cbn. intros (y & Hy & Hrest)%bind_Ok_inv.
    apply bind_Ok_inv in Hrest as (k & Hk & Hret).
    injection Hret as <-. constructor; [done|]. by apply IH.
Qed.

Lemma Forall2_elem_of_l {A B : Type} (P : A -> B -> Prop)
    (l : list A) (k : list B) (x : A) :
  Forall2 P l k -> x ∈ l -> exists y, y ∈ k /\ P x y.
Proof.
  induction 1 as [|x' y' l k Hxy _ IH]; [by intros ?%elem_of_nil|].
  intros [-> | Hin]%elem_of_cons.
  - exists y'. split; [apply elem_of_cons; by left | done].
  - destruct (IH Hin) as (y & Hy & HP). exists y.
    split; [apply elem_of_cons; by right | done].
Qed.

Lemma Forall2_elem_of_r {A B : Type} (P : A -> B -> Prop)
    (l : list A) (k : list B) (y : B) :
  Forall2 P l k -> y ∈ k -> exists x, x ∈ l /\ P x y.
Proof.
  induction 1 as [|x' y' l k Hxy _ IH]; [by intros ?%elem_of_nil|].
  intros [-> | Hin]%elem_of_cons.
  - exists x'. split; [apply elem_of_cons; by left | done].
  - destruct (IH Hin) as (x & Hx & HP). exists x.
    split; [apply elem_of_cons; by right | done].
Qed.

Section EnrichmentCollect.
Context `{UnicodeDB}.
Variable classify : text -> text.

Lemma mrsty_record_collect k concepts record concepts' :
  mrsty_record concepts record = Ok concepts' ->
  concept_semtypes concepts' k
  = concept_semtypes concepts k ++ pick 0 2 k (fields record).
Proof.
  unfold mrsty_record.
  intros (cui & H0%getitem_Ok & Hrow)%bind_Ok_inv.
  apply bind_Ok_inv in Hrow as (semantic_type & H2%getitem_Ok & Hrow).
  injection Hrow as <-. unfold pick. rewrite H0, H2.
  unfold concept_semtypes, semtype_add.
  destruct (decide (cui = k)) as [-> | Hne].
  - by rewrite lookup_insert_eq.
  - rewrite lookup_insert_ne by done. by rewrite app_nil_r.
Qed.

(** X4. A semantic-type pass that returns has appended, to the
    ["semtype"] list of every CUI, column 2 of the records whose column
    0 is that CUI, in the order of the file, duplicates kept. *)
Theorem semantic_types_collect (mrsty : list text)
    (concepts concepts' : gmap text Concept.t) (cui : text) :
  process_mrsty mrsty concepts = Ok concepts' ->
  concept_semtypes concepts' cui
  = concept_semtypes concepts cui ++ ((fields <$> mrsty) ≫= pick 0 2 cui).
Proof.
  unfold process_mrsty. intros (n & _ & Hloop)%bind_Ok_inv.
  rewrite list_bind_fmap.
  exact (for_each_collect (fun cs => concept_semtypes cs cui)
           (fun r => pick 0 2 cui (fields r)) _ _
           (fun st r st' Hr => mrsty_record_collect cui st r st' Hr)
           _ _ Hloop).
Qed.

Lemma mrrel_record_collect source name concepts record concepts' :
  mrrel_record concepts record = Ok concepts' ->
  relations_of concepts' source name
  = relations_of concepts source name ++ pick_rel source name (fields record).
Proof.
  unfold mrrel_record.
  intros (s & H4%getitem_Ok & Hrow)%bind_Ok_inv.
  apply bind_Ok_inv in Hrow as (dest & H0%getitem_Ok & Hrow).
  apply bind_Ok_inv in Hrow as (code & H3%getitem_Ok & Hrow).
  apply bind_Ok_inv in Hrow as (rel & Hrel & Hrow).
  unfold dict_getitem in Hrel.
  destruct (RELATIONMAPPING !! code) as [rel'|] eqn:Hcode; [|done].
  injection Hrel as ->.
  unfold pick_rel. rewrite H4, H3, H0, Hcode.
  destruct (relations_of_rel_add _ _ _ _ _ Hrow) as [Hsame Hother].
  destruct (decide (s = source /\ rel = name)) as [[-> ->] | Hne].
  - exact Hsame.
  - rewrite app_nil_r. apply Hother. intros [= -> ->]. by apply Hne.
Qed.

(** X5. A relations pass that returns has appended, to the list of
    every relation name of every CUI, column 0 of the records whose
    column 4 is that CUI and whose code stands for that name, in the
    order of the file, duplicates kept. *)
Theorem relations_collect (mrrel : list text)
    (concepts concepts' : gmap text Concept.t) (source name : text) :
  process_mrrel mrrel concepts = Ok concepts' ->
  relations_of concepts' source name
  = relations_of concepts source name
    ++ ((fields <$> mrrel) ≫= pick_rel source name).
Proof.
  unfold process_mrrel. intros (n & _ & Hloop)%bind_Ok_inv.
  rewrite list_bind_fmap.
  exact (for_each_collect (fun cs => relations_of cs source name)
           (fun r => pick_rel source name (fields r)) _ _
           (fun st r st' Hr => mrrel_record_collect source name st r st' Hr)
           _ _ Hloop).
Qed.

Lemma mrdef_record_collect isolanguages preprocessor k concepts record concepts' :
  mrdef_record classify isolanguages preprocessor concepts record
  = Ok concepts' ->
  concept_definitions concepts' k
  = concept_definitions concepts k
    ++ pick_def classify isolanguages preprocessor k (fields record).
Proof.
  unfold mrdef_record.
  intros (pk & H0%getitem_Ok & Hrow)%bind_Ok_inv.
  apply bind_Ok_inv in Hrow as (definition & H5%getitem_Ok & Hrow).
  unfold pick_def. rewrite H0, H5.
  case_bool_decide as Hlang; injection Hrow as <-.
  - rewrite decide_False by (by intros [_ ?]). by rewrite app_nil_r.
  - unfold concept_definitions, definition_add.
    destruct (decide (pk = k)) as [-> | Hne].
    + rewrite decide_True by done. by rewrite lookup_insert_eq.
    + rewrite decide_False by (by intros [? _]).
      rewrite lookup_insert_ne by done. by rewrite app_nil_r.
Qed.

(** X6. A definitions pass that returns has mapped every configured
    language through [LANGDICT] and has appended, to the ["definition"]
    list of every key, the preprocessed column 5 of the records whose
    column 0 is that key and whose classified language is one of the
    mapped codes, in the order of the file. *)
Theorem definitions_collect (mrdef : list text)
    (concepts concepts' : gmap text Concept.t) (languages : gset text)
    (preprocessor : option (text -> text)) (pk : text) :
  process_mrdef classify mrdef concepts languages preprocessor = Ok concepts' ->
  exists isolanguages : gset text,
    (forall iso, iso ∈ isolanguages <->
       exists l, l ∈ languages /\ LANGDICT !! l = Some iso)
    /\ concept_definitions concepts' pk
       = concept_definitions concepts pk
         ++ ((fields <$> mrdef)
               ≫= pick_def classify isolanguages preprocessor pk).
Proof.
  unfold process_mrdef, isolanguages_of.
  intros (iso & Hiso & Hrun)%bind_Ok_inv.
  apply bind_Ok_inv in Hrun as (n & _ & Hrun).
  apply bind_Ok_inv in Hrun as (cs & Hloop & Hrun).
  injection Hrun as <-. rewrite relist_definitions_id.
  exists iso. split.
  - destruct (mapM (dict_getitem LANGDICT) (elements languages))
      as [codes|] eqn:Hcodes; [|done].
    injection Hiso as <-. apply mapM_Ok_inv in Hcodes.
    intros x. rewrite elem_of_list_to_set. split.
    + intros Hx.
      destruct (Forall2_elem_of_r _ _ _ _ Hcodes Hx)
        as (l & Hl%elem_of_elements & Hlx).
      exists l. split; [done|]. unfold dict_getitem in Hlx.
      by destruct (LANGDICT !! l) as [y|]; [injection Hlx as ->|].
    + intros (l & Hl%elem_of_elements & Hlx).
      destruct (Forall2_elem_of_l _ _ _ _ Hcodes Hl) as (y & Hy & Hly).
      unfold dict_getitem in Hly. rewrite Hlx in Hly. by injection Hly as <-.
  - rewrite list_bind_fmap.
    exact (for_each_collect (fun cs => concept_definitions cs pk)
             (fun r => pick_def classify iso preprocessor pk (fields r)) _ _
             (fun st r st' Hr =>
                mrdef_record_collect iso preprocessor pk st r st' Hr)
             _ _ Hloop).
Qed.

End EnrichmentCollect.

Lemma semantic_types_collect_witness :
  concept_semtypes (sample_concepts None) (txt "C001")
  = concept_semtypes
      (<[txt "C001" := Concept.mk (Some (txt "C001")) (Some (txt "L001"))
                         (Some [txt "L001"; txt "L002"])
                         (Some [txt "S001"; txt "S002"]) None None None]>
         (<[txt "C002" := only_rel (txt "parent") (txt "C001")]> ∅))
      (txt "C001")
    ++ ((fields (H:=ascii_db) <$> [sample_semantic_type])
          ≫= pick 0 2 (txt "C001")).
Proof.
  apply (semantic_types_collect (H:=ascii_db) [sample_semantic_type]).
  vm_compute. reflexivity.
Defined.

Lemma relations_collect_witness :
  relations_of (<[txt "C002" := only_rel (txt "parent") (txt "C001")]> ∅)
    (txt "C002") (txt "parent")
  = relations_of ∅ (txt "C002") (txt "parent")
    ++ ((fields (H:=ascii_db) <$> [sample_relation])
          ≫= pick_rel (txt "C002") (txt "parent")).
Proof.
  apply (relations_collect (H:=ascii_db) [sample_relation]).
  vm_compute. reflexivity.
Defined.

Lemma definitions_collect_witness :
  exists isolanguages : gset text,
    (forall iso, iso ∈ isolanguages <->
       exists l, l ∈ ({[txt "ENG"]} : gset text) /\ LANGDICT !! l = Some iso)
    /\ concept_definitions
         (<[txt "C001" := Concept.mk None None None None None
                            (Some [txt "A greeting."]) None]> ∅) (txt "C001")
       = concept_definitions ∅ (txt "C001")
         ++ ((fields (H:=ascii_db) <$> sample_mrdef)
               ≫= pick_def sample_classify isolanguages None (txt "C001")).
Proof.
  apply (definitions_collect (H:=ascii_db) sample_classify sample_mrdef ∅).
  vm_compute. reflexivity.
Defined.

(** ** The shape of the relations *)

Section RelationShape.
Context `{UnicodeDB}.
Variable classify : text -> text.

Lemma rel_well_formed_empty : rel_well_formed Concept.empty.
Proof. done. Qed.

Lemma update_rel_well_formed (f : Concept.t -> Concept.t)
    (concepts : gmap text Concept.t) (k : text) :
  (forall c, Concept.rel (f c) = Concept.rel c) ->
  map_Forall (fun _ c => rel_well_formed c) concepts ->
  map_Forall (fun _ c => rel_well_formed c)
    (<[k := f (default Concept.empty (concepts !! k))]> concepts).
Proof.
  intros Hf Hinv. apply map_Forall_insert_2; [|done].
  unfold rel_well_formed. rewrite Hf.
  by apply (default_Forall rel_well_formed).
Qed.

Lemma concepts_record_rel_well_formed languages concepts record concepts' :
  map_Forall (fun _ c => rel_well_formed c) concepts ->
  concepts_record languages concepts record = Ok concepts' ->
  map_Forall (fun _ c => rel_well_formed c) concepts'.
Proof.
  intros Hinv. unfold concepts_record.
  intros (skip & _ & Hrow)%bind_Ok_inv. destruct skip.
  - by injection Hrow as <-.
  - apply bind_Ok_inv in Hrow as (cui & _ & Hrow).
    apply bind_Ok_inv in Hrow as (sui & _ & Hrow).
    apply bind_Ok_inv in Hrow as (lui & _ & Hrow).
    apply bind_Ok_inv in Hrow as (flag & _ & Hrow).
    injection Hrow as <-. unfold concepts_add.
    apply map_Forall_insert_2; [|done].
    pose proof (default_Forall rel_well_formed concepts cui Hinv
                  rel_well_formed_empty) as Hc.
    destruct (decide (flag = txt "P"));
      destruct (default Concept.empty (concepts !! cui)); exact Hc.
Qed.

Lemma mrrel_record_rel_well_formed concepts record concepts' :
  map_Forall (fun _ c => rel_well_formed c) concepts ->
  mrrel_record concepts record = Ok concepts' ->
  map_Forall (fun _ c => rel_well_formed c) concepts'.
Proof.
  intros Hinv. unfold mrrel_record.
  intros (source & _ & Hrow)%bind_Ok_inv.
  apply bind_Ok_inv in Hrow as (dest & _ & Hrow).
  apply bind_Ok_inv in Hrow as (code & _ & Hrow).
  apply bind_Ok_inv in Hrow as (rel & Hrel & Hrow).
  unfold dict_getitem in Hrel.
  destruct (RELATIONMAPPING !! code) as [rel'|] eqn:Hcode; [|done].
  injection Hrel as ->.
  rewrite rel_add_eq in Hrow. injection Hrow as <-.
  apply map_Forall_insert_2; [|done].
  pose proof (default_Forall rel_well_formed concepts source Hinv
                rel_well_formed_empty) as Hc.
  unfold rel_well_formed, rel_dict in *.
  destruct (default Concept.empty (concepts !! source)) as [i p l s r d t].
  cbn in *. intros name lst.
  destruct (decide (rel = name)) as [<- | Hne].
  - rewrite lookup_insert_eq. intros [= <-]. split; [|by exists code].
    by destruct (default [] _).
  - rewrite lookup_insert_ne by done.
    destruct r as [[?|dict]|]; [done | apply Hc | by rewrite lookup_empty].
Qed.

(** X7. In the set [_create_concepts] returns, the value under ["rel"]
    of a concept, when there is one, is a dictionary and never the list
    of the first access; each of its keys is a name of [RELATIONMAPPING]
    and each of its lists holds at least one CUI. *)
Theorem relations_well_formed (path : meta)
    (process_definitions process_relations process_semantic_types : bool)
    (languages : gset text) (preprocessor : option (text -> text))
    (concepts : gmap text Concept.t) (cui : text) (c : Concept.t) :
  _create_concepts classify path process_definitions process_relations
    process_semantic_types languages preprocessor = Ok concepts ->
  concepts !! cui = Some c ->
  rel_well_formed c.
Proof.
  intros (c0 & c1 & c2 & H0 & H1 & H2 & H3)%create_concepts_stages Hc.
  assert (map_Forall (fun _ c => rel_well_formed c) c0) as I0.
  { revert H0. apply for_each_invariant; [|apply map_Forall_empty].
    intros st record st'. apply concepts_record_rel_well_formed. }
  assert (map_Forall (fun _ c => rel_well_formed c) c1) as I1.
  { destruct process_definitions; [|by injection H1 as <-].
    revert H1. unfold process_mrdef.
    intros (iso & _ & Hrun)%bind_Ok_inv.
    apply bind_Ok_inv in Hrun as (n & _ & Hrun).
    apply bind_Ok_inv in Hrun as (cs & Hloop & Hrun).
    injection Hrun as <-. rewrite relist_definitions_id.
    revert Hloop. apply for_each_invariant; [|done].
    intros st record st' Hst. unfold mrdef_record.
    intros (pk & _ & Hrow)%bind_Ok_inv.
    apply bind_Ok_inv in Hrow as (definition & _ & Hrow).
    case_bool_decide; injection Hrow as <-; [done|].
    by apply (update_rel_well_formed (Concept.set_definition _)). }
  assert (map_Forall (fun _ c => rel_well_formed c) c2) as I2.
  { destruct process_relations; [|by injection H2 as <-].
    revert H2. unfold process_mrrel. intros (n & _ & Hloop)%bind_Ok_inv.
    revert Hloop. apply for_each_invariant; [|done].
    intros st record st'. apply mrrel_record_rel_well_formed. }
  assert (map_Forall (fun _ c => rel_well_formed c) concepts) as I3.
  { destruct process_semantic_types; [|by injection H3 as <-].
    revert H3. unfold process_mrsty. intros (n & _ & Hloop)%bind_Ok_inv.
    revert Hloop. apply for_each_invariant; [|done].
    intros st record st' Hst. unfold mrsty_record.
    intros (k & _ & Hrow)%bind_Ok_inv.
    apply bind_Ok_inv in Hrow as (semantic_type & _ & Hrow).
    injection Hrow as <-.
    by apply (update_rel_well_formed (Concept.set_semtype _)). }
  exact (I3 cui c Hc).
Qed.

End RelationShape.

Lemma relations_well_formed_witness :
  rel_well_formed (only_rel (txt "parent") (txt "C001")).
Proof.
  apply (relations_well_formed (H:=ascii_db) sample_classify sample_meta
           true true true {[txt "ENG"]} None
           (sample_concepts (Some [txt "A greeting."])) (txt "C002"));
    vm_compute; reflexivity.
Defined.

(** ** What the string pass collects *)

Section StringCollect.
Context `{UnicodeDB}.

Lemma strings_record_cases languages strings record strings' :
  strings_record languages strings record = Ok strings' ->
  exists raw string,
    fields record !! 14 = Some raw
    /\ length_guard raw = Ok string
    /\ ((accepted languages record = [] /\ strings' = strings)
        \/ exists cui sui lui lang,
             accepted languages record = [fields record]
             /\ rejected languages (fields record) = Ok false
             /\ fields record !! 0 = Some cui
             /\ fields record !! 5 = Some sui
             /\ fields record !! 3 = Some lui
             /\ fields record !! 1 = Some lang
             /\ strings' = strings_add strings string lang cui sui lui).
Proof.
  unfold strings_record, accepted.
  intros (raw & H14%getitem_Ok & Hrow)%bind_Ok_inv.
  apply bind_Ok_inv in Hrow as (string & Hguard & Hrow).
  apply bind_Ok_inv in Hrow as (skip & Hskip & Hrow).
  exists raw, string. split; [done|]. split; [done|].
  rewrite Hskip. destruct skip.
  - left. by injection Hrow as <-.
  - right. apply bind_Ok_inv in Hrow as (cui & H0%getitem_Ok & Hrow).
    apply bind_Ok_inv in Hrow as (sui & H5%getitem_Ok & Hrow).
    apply bind_Ok_inv in Hrow as (lui & H3%getitem_Ok & Hrow).
    apply bind_Ok_inv in Hrow as (lang & H1%getitem_Ok & Hrow).
    injection Hrow as <-. eauto 15.
Qed.

Lemma strings_record_derived languages strings record strings' :
  map_Forall (fun k r => string_record_derived languages k r) strings ->
  strings_record languages strings record = Ok strings' ->
  map_Forall (fun k r => string_record_derived languages k r) strings'.
Proof.
  intros Hinv (raw & string & _ & _ & Hcases)%strings_record_cases.
  destruct Hcases
    as [[_ ->] | (cui & sui & lui & lang & _ & Hrej & _ & _ & _ & H1 & ->)];
    [done|].
  unfold strings_add. apply map_Forall_insert_2; [|done].
  exists string, lang, lui. eexists. split; [reflexivity|]. split.
  - by destruct (field_list _).
  - rewrite (rejected_eq languages _ lang H1) in Hrej. injection Hrej as Hrej.
    apply bool_decide_eq_false in Hrej.
    destruct (decide (languages = ∅)) as [?|Hne]; [by left|]. right.
    destruct (decide (lang ∈ languages)); [done|]. by destruct Hrej.
Qed.

(** X8. Every record of the set [_create_strings] returns carries its
    key under ["_id"], a string, the normal form of that string under
    ["lower"], the two word counts of these two, a LUI and at least one
    CUI; its language is a member of the language set unless the set is
    empty. *)
Theorem string_records_derived (mrconso : list text) (languages : gset text)
    (strings : gmap text StringRecord.t) (sui : text) (r : StringRecord.t) :
  _create_strings mrconso languages = Ok strings ->
  strings !! sui = Some r ->
  string_record_derived languages sui r.
Proof.
  unfold _create_strings. intros (n & _ & Hloop)%bind_Ok_inv Hr.
  assert (map_Forall (fun k r => string_record_derived languages k r) strings)
    as Hall.
  { revert Hloop. apply for_each_invariant; [|apply map_Forall_empty].
    intros st record st'. apply strings_record_derived. }
  exact (Hall sui r Hr).
Qed.

Lemma strings_record_collect languages k strings record strings' :
  strings_record languages strings record = Ok strings' ->
  string_cuis strings' k
  = string_cuis strings k ++ (accepted languages record ≫= pick 5 0 k)
  /\ StringRecord.lui (default StringRecord.empty (strings' !! k))
     = match last (accepted languages record ≫= pick 5 3 k) with
       | Some y => Some y
       | None => StringRecord.lui (default StringRecord.empty (strings !! k))
       end
  /\ StringRecord.lang (default StringRecord.empty (strings' !! k))
     = match last (accepted languages record ≫= pick 5 1 k) with
       | Some y => Some y
       | None => StringRecord.lang (default StringRecord.empty (strings !! k))
       end
  /\ StringRecord.string (default StringRecord.empty (strings' !! k))
     = match last (accepted languages record
                     ≫= (fun split => pick 5 14 k split ≫= guarded)) with
       | Some y => Some y
       | None => StringRecord.string (default StringRecord.empty (strings !! k))
       end.
Proof.
  intros (raw & string & H14 & Hguard & Hcases)%strings_record_cases.
  destruct Hcases
    as [[-> ->] | (cui & sui & lui & lang & -> & _ & H0 & H5 & H3 & H1 & ->)].
  - by rewrite !app_nil_r.
  - rewrite !pick_singleton, bind_cons, (app_nil_r (pick 5 14 k _ ≫= guarded)).
    unfold pick. rewrite H0, H1, H3, H5, H14.
    unfold string_cuis, strings_add.
    destruct (decide (sui = k)) as [-> | Hne].
    + rewrite lookup_insert_eq, bind_cons, app_nil_r. unfold guarded.
      by rewrite Hguard.
    + rewrite lookup_insert_ne by done. by rewrite !app_nil_r.
Qed.

Lemma strings_record_nonempty languages strings record strings' :
  map_Forall (fun _ r => field_list (StringRecord.cui r) <> []) strings ->
  strings_record languages strings record = Ok strings' ->
  map_Forall (fun _ r => field_list (StringRecord.cui r) <> []) strings'.
Proof.
  intros Hinv (raw & string & _ & _ & Hcases)%strings_record_cases.
  destruct Hcases
    as [[_ ->] | (cui & sui & lui & lang & _ & _ & _ & _ & _ & _ & ->)];
    [done|].
  unfold strings_add. apply map_Forall_insert_2; [|done]. cbn.
  by destruct (field_list _).
Qed.

(** X9. In the set [_create_strings] returns, the ["cui"] list of a SUI
    is column 0 of the accepted records whose column 5 is that SUI, in
    the order of the file, duplicates kept; ["lui"], ["lang"] and
    ["string"] are column 3, column 1 and the guarded column 14 of the
    last of these records; the SUI is a key exactly when there is such a
    record. *)
Theorem strings_collect (mrconso : list text) (languages : gset text)
    (strings : gmap text StringRecord.t) (sui : text) :
  _create_strings mrconso languages = Ok strings ->
  string_cuis strings sui = accepted_records languages mrconso ≫= pick 5 0 sui
  /\ StringRecord.lui (default StringRecord.empty (strings !! sui))
     = last (accepted_records languages mrconso ≫= pick 5 3 sui)
  /\ StringRecord.lang (default StringRecord.empty (strings !! sui))
     = last (accepted_records languages mrconso ≫= pick 5 1 sui)
  /\ StringRecord.string (default StringRecord.empty (strings !! sui))
     = last ((accepted_records languages mrconso ≫= pick 5 14 sui) ≫= guarded)
  /\ (is_Some (strings !! sui) <-> string_cuis strings sui <> []).
Proof.
  unfold _create_strings, accepted_records.
  intros (n & _ & Hloop)%bind_Ok_inv.
  rewrite !list_bind_bind.
  split; [|split; [|split; [|split]]].
  - pose proof (for_each_collect (fun st => string_cuis st sui)
                  (fun r => accepted languages r ≫= pick 5 0 sui) _ _
                  (fun st r st' Hr =>
                     proj1 (strings_record_collect languages sui st r st' Hr))
                  _ _ Hloop) as Hc.
    unfold string_cuis in Hc at 2. rewrite lookup_empty in Hc. exact Hc.
  - pose proof (for_each_last
                  (fun st => StringRecord.lui
                               (default StringRecord.empty (st !! sui)))
                  (fun r => accepted languages r ≫= pick 5 3 sui) _ _
                  (fun st r st' Hr =>
                     proj1 (proj2 (strings_record_collect languages sui
                                     st r st' Hr)))
                  _ _ Hloop) as Hc.
    cbv beta in Hc. rewrite Hc, lookup_empty. cbn. by destruct (last _).
  - pose proof (for_each_last
                  (fun st => StringRecord.lang
                               (default StringRecord.empty (st !! sui)))
                  (fun r => accepted languages r ≫= pick 5 1 sui) _ _
                  (fun st r st' Hr =>
                     proj1 (proj2 (proj2 (strings_record_collect languages sui
                                            st r st' Hr))))
                  _ _ Hloop) as Hc.
    cbv beta in Hc. rewrite Hc, lookup_empty. cbn. by destruct (last _).
  - pose proof (for_each_last
                  (fun st => StringRecord.string
                               (default StringRecord.empty (st !! sui)))
                  (fun r => accepted languages r
                              ≫= (fun split => pick 5 14 sui split ≫= guarded))
                  _ _
                  (fun st r st' Hr =>
                     proj2 (proj2 (proj2 (strings_record_collect languages sui
                                            st r st' Hr))))
                  _ _ Hloop) as Hc.
    cbv beta in Hc. rewrite Hc, lookup_empty. cbn. by destruct (last _).
  - split.
    + intros [r Hr]. unfold string_cuis. rewrite Hr. cbn.
      assert (map_Forall
                (fun _ r => field_list (StringRecord.cui r) <> []) strings)
        as Hall.
      { revert Hloop. apply for_each_invariant; [|apply map_Forall_empty].
        intros st record st'. apply strings_record_nonempty. }
      exact (Hall sui r Hr).
    + unfold string_cuis. destruct (strings !! sui); [by eexists | done].
Qed.

End StringCollect.

Lemma string_records_derived_witness :
  string_record_derived (H:=ascii_db) {[txt "ENG"]} (txt "S001") sample_S001.
Proof.
  apply (string_records_derived (H:=ascii_db) sample_mrconso {[txt "ENG"]}
           sample_strings (txt "S001") sample_S001);
    vm_compute; reflexivity.
Defined.

Lemma strings_collect_witness :
  let records := accepted_records (H:=ascii_db) {[txt "ENG"]} sample_mrconso in
  let r := default StringRecord.empty (sample_strings !! txt "S001") in
  string_cuis sample_strings (txt "S001") = records ≫= pick 5 0 (txt "S001")
  /\ StringRecord.lui r = last (records ≫= pick 5 3 (txt "S001"))
  /\ StringRecord.lang r = last (records ≫= pick 5 1 (txt "S001"))
  /\ StringRecord.string r
     = last ((records ≫= pick 5 14 (txt "S001")) ≫= guarded)
  /\ (is_Some (sample_strings !! txt "S001")
      <-> string_cuis sample_strings (txt "S001") <> []).
Proof.
  apply (strings_collect (H:=ascii_db) sample_mrconso {[txt "ENG"]}
           sample_strings (txt "S001")).
  vm_compute. reflexivity.
Defined.

(** ** The three sets together *)

Lemma elem_of_pick (records : list (list text)) (i j : nat) (k x : text) :
  x ∈ (records ≫= pick i j k)
  <-> exists split, split ∈ records /\ split !! i = Some k /\ split !! j = Some x.
Proof.
  rewrite list_elem_of_bind. unfold pick. split.
  - intros (split & Hx & Hin). exists split. split; [done|].
    destruct (split !! i) as [k'|]; [|by apply elem_of_nil in Hx].
    destruct (split !! j) as [v|]; [|by apply elem_of_nil in Hx].
    destruct (decide (k' = k)) as [->|]; [|by apply elem_of_nil in Hx].
    by apply list_elem_of_singleton in Hx as ->.
  - intros (split & Hin & Hi & Hj). exists split. split; [|done].
    rewrite Hi, Hj, decide_True by done. by apply list_elem_of_singleton.
Qed.

Lemma pick_not_nil (records : list (list text)) (i j : nat) (k x : text)
    (split : list text) :
  split ∈ records -> split !! i = Some k -> split !! j = Some x ->
  records ≫= pick i j k <> [].
Proof.
  intros Hin Hi Hj Hnil.
  assert (x ∈ (records ≫= pick i j k)) as Hx
    by (apply elem_of_pick; eauto).
  rewrite Hnil in Hx. by apply elem_of_nil in Hx.
Qed.

Section Together.
Context `{UnicodeDB}.
Variable classify : text -> text.

Lemma terms_pass_cuis mrconso languages terms lui :
  _create_terms mrconso languages = Ok terms ->
  term_cuis terms lui = accepted_records languages mrconso ≫= pick 3 0 lui
  /\ term_suis terms lui = accepted_records languages mrconso ≫= pick 3 5 lui.
Proof.
  unfold _create_terms, accepted_records.
  intros (n & _ & Hloop)%bind_Ok_inv. rewrite !list_bind_bind. split.
  - pose proof (for_each_collect (fun ts => term_cuis ts lui)
                  (fun r => accepted languages r ≫= pick 3 0 lui) _ _
                  (fun st r st' Hr =>
                     proj1 (terms_record_collect languages lui st r st' Hr))
                  _ _ Hloop) as Hc.
    unfold term_cuis in Hc at 2. rewrite lookup_empty in Hc. exact Hc.
  - pose proof (for_each_collect (fun ts => term_suis ts lui)
                  (fun r => accepted languages r ≫= pick 3 5 lui) _ _
                  (fun st r st' Hr =>
                     proj2 (terms_record_collect languages lui st r st' Hr))
                  _ _ Hloop) as Hc.
    unfold term_suis in Hc at 2. rewrite lookup_empty in Hc. exact Hc.
Qed.

Lemma terms_pass_key mrconso languages terms lui :
  _create_terms mrconso languages = Ok terms ->
  terms !! lui = None -> term_cuis terms lui = [].
Proof. intros _ Hnone. unfold term_cuis. by rewrite Hnone. Qed.

Lemma strings_pass_cuis mrconso languages strings sui :
  _create_strings mrconso languages = Ok strings ->
  string_cuis strings sui = accepted_records languages mrconso ≫= pick 5 0 sui
  /\ StringRecord.lui (default StringRecord.empty (strings !! sui))
     = last (accepted_records languages mrconso ≫= pick 5 3 sui).
Proof.
  unfold _create_strings, accepted_records.
  intros (n & _ & Hloop)%bind_Ok_inv. rewrite !list_bind_bind. split.
  - pose proof (for_each_collect (fun st => string_cuis st sui)
                  (fun r => accepted languages r ≫= pick 5 0 sui) _ _
                  (fun st r st' Hr =>
                     proj1 (strings_record_collect languages sui st r st' Hr))
                  _ _ Hloop) as Hc.
    unfold string_cuis in Hc at 2. rewrite lookup_empty in Hc. exact Hc.
  - pose proof (for_each_last
                  (fun st => StringRecord.lui
                               (default StringRecord.empty (st !! sui)))
                  (fun r => accepted languages r ≫= pick 5 3 sui) _ _
                  (fun st r st' Hr =>
                     proj1 (proj2 (strings_record_collect languages sui
                                     st r st' Hr)))
                  _ _ Hloop) as Hc.
    cbv beta in Hc. rewrite Hc, lookup_empty. cbn. by destruct (last _).
Qed.

Lemma concepts_run_lists path pd pr ps languages preprocessor concepts cui :
  _create_concepts classify path pd pr ps languages preprocessor = Ok concepts ->
  concept_luis concepts cui
  = accepted_records languages (MRCONSO path) ≫= pick 0 3 cui
  /\ concept_suis concepts cui
     = accepted_records languages (MRCONSO path) ≫= pick 0 5 cui.
Proof.
  intros Hrun.
  destruct (create_concepts_stages classify _ _ _ _ _ _ _ Hrun)
    as (c0 & c1 & c2 & H0 & H1 & H2 & H3).
  destruct (stages_keep classify _ _ _ _ _ _ _ _ _ _ H1 H2 H3 cui)
    as [_ (_ & _ & Slui & Ssui)].
  unfold concept_luis, concept_suis, accepted_records.
  rewrite Slui, Ssui, !list_bind_bind. split.
  - pose proof (for_each_collect (fun cs => concept_luis cs cui)
                  (fun r => accepted languages r ≫= pick 0 3 cui) _ _
                  (fun st r st' Hr =>
                     proj1 (concepts_record_collect languages cui st r st' Hr))
                  _ _ H0) as Hc.
    unfold concept_luis in Hc. rewrite lookup_empty in Hc. exact Hc.
  - pose proof (for_each_collect (fun cs => concept_suis cs cui)
                  (fun r => accepted languages r ≫= pick 0 5 cui) _ _
                  (fun st r st' Hr =>
                     proj1 (proj2 (concepts_record_collect languages cui
                                     st r st' Hr)))
                  _ _ H0) as Hc.
    unfold concept_suis in Hc. rewrite lookup_empty in Hc. exact Hc.
Qed.

Lemma accepted_records_fields languages lines split :
  split ∈ accepted_records languages lines -> exists r, split = fields r.
Proof.
  unfold accepted_records. rewrite list_elem_of_bind.
  intros (r & Hin & _). exists r. unfold accepted in Hin.
  destruct (rejected languages (fields r)) as [[|]|];
    try (by apply elem_of_nil in Hin).
  by apply list_elem_of_singleton in Hin.
Qed.

Lemma createdb_Ok_inv path languages db pd pr ps preprocessor
    concepts strings terms :
  createdb classify path languages db pd pr ps preprocessor
  = Ok (concepts, strings, terms) ->
  _create_terms (MRCONSO path) (list_to_set languages) = Ok terms
  /\ _create_strings (MRCONSO path) (list_to_set languages) = Ok strings
  /\ _create_concepts classify path pd pr ps (list_to_set languages)
       preprocessor = Ok concepts.
Proof.
  unfold createdb. intros (iso & _ & Hrun)%bind_Ok_inv.
  apply bind_Ok_inv in Hrun as (ts & Ht & Hrun).
  apply bind_Ok_inv in Hrun as (ss & Hs & Hrun).
  apply bind_Ok_inv in Hrun as (cs & Hc & Hrun).
  apply bind_Ok_inv in Hrun as (name & _ & Hrun).
  by injection Hrun as <- <- <-.
Qed.

(** X10. In the triple [createdb] returns, the identifiers the MRCONSO
    loops store resolve: the LUIs under ["lui"] and the SUIs under
    ["sui"] of a concept are keys of the terms and of the strings, the
    CUIs under ["cui"] and the SUIs under ["sui"] of a term are keys of
    the concepts and of the strings, and the CUIs under ["cui"] and the
    LUI under ["lui"] of a string record are keys of the concepts and of
    the terms. The CUIs under ["rel"] are not among them: a relation
    record may name a CUI that is a key of nothing. *)
Theorem references_resolve (path : meta) (languages : list text)
    (db : Database) (process_definitions process_relations process_semantic_types : bool)
    (preprocessor : option (text -> text))
    (concepts : gmap text Concept.t) (strings : gmap text StringRecord.t)
    (terms : gmap text Term.t) :
  createdb classify path languages db process_definitions process_relations
    process_semantic_types preprocessor = Ok (concepts, strings, terms) ->
  (forall cui x, x ∈ concept_luis concepts cui -> is_Some (terms !! x))
  /\ (forall cui x, x ∈ concept_suis concepts cui -> is_Some (strings !! x))
  /\ (forall lui x, x ∈ term_cuis terms lui -> is_Some (concepts !! x))
  /\ (forall lui x, x ∈ term_suis terms lui -> is_Some (strings !! x))
  /\ (forall sui x, x ∈ string_cuis strings sui -> is_Some (concepts !! x))
  /\ (forall sui x,
        StringRecord.lui (default StringRecord.empty (strings !! sui)) = Some x ->
        is_Some (terms !! x)).
Proof.
  intros (Ht & Hs & Hc)%createdb_Ok_inv.
  set (A := accepted_records (list_to_set languages) (MRCONSO path)).
  assert (forall lui split x, split ∈ A -> split !! 3 = Some lui ->
            split !! 0 = Some x -> is_Some (terms !! lui)) as Tkey.
  { intros lui split x Hin H3 H0.
    destruct (terms !! lui) eqn:Hl; [by eexists|].
    pose proof (terms_pass_key _ _ _ lui Ht Hl) as Hnil.
    rewrite (proj1 (terms_pass_cuis _ _ _ lui Ht)) in Hnil.
    by destruct (pick_not_nil _ _ _ _ _ _ Hin H3 H0). }
  assert (forall sui split x, split ∈ A -> split !! 5 = Some sui ->
            split !! 0 = Some x -> is_Some (strings !! sui)) as Skey.
  { intros sui split x Hin H5 H0.
    destruct (strings !! sui) eqn:Hl; [by eexists|].
    pose proof (proj1 (strings_pass_cuis _ _ _ sui Hs)) as Hcuis.
    unfold string_cuis in Hcuis. rewrite Hl in Hcuis. symmetry in Hcuis.
    by destruct (pick_not_nil _ _ _ _ _ _ Hin H5 H0). }
  assert (forall cui split x, split ∈ A -> split !! 0 = Some cui ->
            split !! 3 = Some x -> is_Some (concepts !! cui)) as Ckey.
  { intros cui split x Hin H0 H3.
    destruct (concepts !! cui) eqn:Hl; [by eexists|].
    pose proof (proj1 (concepts_run_lists _ _ _ _ _ _ _ cui Hc)) as Hluis.
    unfold concept_luis in Hluis. rewrite Hl in Hluis. symmetry in Hluis.
    by destruct (pick_not_nil _ _ _ _ _ _ Hin H0 H3). }
  assert (forall split, split ∈ A -> is_Some (split !! 0)) as Hhead.
  { intros split [r ->]%accepted_records_fields. apply split_on_head. }
  assert (forall split x, split ∈ A -> split !! 5 = Some x ->
            is_Some (split !! 3)) as Hthree.
  { intros split x _ H5. apply lookup_lt_is_Some.
    apply lookup_lt_Some in H5. lia. }
  split; [|split; [|split; [|split; [|split]]]].
  - intros cui x. rewrite (proj1 (concepts_run_lists _ _ _ _ _ _ _ cui Hc)).
    intros (split & Hin & H0 & H3)%elem_of_pick. eauto.
  - intros cui x. rewrite (proj2 (concepts_run_lists _ _ _ _ _ _ _ cui Hc)).
    intros (split & Hin & H0 & H5)%elem_of_pick. eauto.
  - intros lui x. rewrite (proj1 (terms_pass_cuis _ _ _ lui Ht)).
    intros (split & Hin & H3 & H0)%elem_of_pick. eauto.
  - intros lui x. rewrite (proj2 (terms_pass_cuis _ _ _ lui Ht)).
    intros (split & Hin & H3 & H5)%elem_of_pick.
    destruct (Hhead split Hin) as [c H0]. eauto.
  - intros sui x. rewrite (proj1 (strings_pass_cuis _ _ _ sui Hs)).
    intros (split & Hin & H5 & H0)%elem_of_pick.
    destruct (Hthree split sui Hin H5) as [l H3]. eauto.
  - intros sui x. rewrite (proj2 (strings_pass_cuis _ _ _ sui Hs)).
    intros (split & Hin & H5 & H3)%last_Some_elem_of%elem_of_pick.
    destruct (Hhead split Hin) as [c H0]. eauto.
Qed.

End Together.

Lemma references_resolve_witness :
  let concepts := sample_concepts (Some [txt "A greeting."]) in
  (forall cui x, x ∈ concept_luis concepts cui -> is_Some (sample_terms !! x))
  /\ (forall cui x, x ∈ concept_suis concepts cui ->
        is_Some (sample_strings !! x))
  /\ (forall lui x, x ∈ term_cuis sample_terms lui -> is_Some (concepts !! x))
  /\ (forall lui x, x ∈ term_suis sample_terms lui ->
        is_Some (sample_strings !! x))
  /\ (forall sui x, x ∈ string_cuis sample_strings sui ->
        is_Some (concepts !! x))
  /\ (forall sui x,
        StringRecord.lui (default StringRecord.empty (sample_strings !! sui))
        = Some x ->
        is_Some (sample_terms !! x)).
Proof.
  apply (references_resolve (H:=ascii_db) sample_classify sample_meta
           [txt "ENG"] sample_db true true true None).
  vm_compute. reflexivity.
Defined.

(** A CUI under ["rel"] need not be a key: [C777], column 0 of a relation
    of [C001], is in the list ["parent"] of [C001] and a key of nothing. *)
Example relation_target_need_not_be_a_key :
  (fun concepts =>
     (relations_of concepts (txt "C001") (txt "parent"),
      concepts !! txt "C777"))
    <$> _create_concepts (H:=ascii_db) sample_classify
          {| MRCONSO := sample_mrconso; MRDEF := sample_mrdef;
             MRREL := [line "C777|A007|AUI|PAR|C001|A001|AUI||R007||MSH|MSH|||N||"];
             MRSTY := [sample_semantic_type] |}
          true true true {[txt "ENG"]} None
  = Ok ([txt "C777"], None).
Proof. vm_compute. reflexivity. Qed.

(** ** Errors and edges *)

Lemma mapM_cons {A B : Type} (f : A -> result B) (x : A) (l : list A) :
  mapM f (x :: l) = y ← f x; k ← mapM f l; Ok (y :: k).
Proof. reflexivity. Qed.

Lemma mapM_dict_getitem_Ok (d : gmap text text) (l : list text) :
  Forall (fun x => is_Some (d !! x)) l ->
  exists ys, mapM (dict_getitem d) l = Ok ys.
Proof.
  induction 1 as [|x l [y Hy] _ [ys IH]]; [by exists []|].
  exists (y :: ys). rewrite mapM_cons, IH. unfold dict_getitem.
  by rewrite Hy.
Qed.

Lemma mapM_dict_getitem_Err (d : gmap text text) (l : list text) (x : text) :
  x ∈ l -> d !! x = None ->
  exists k, mapM (dict_getitem d) l = Err (KeyError k).
Proof.
  intros Hin Hx. induction l as [|y l IH]; [by apply elem_of_nil in Hin|].
  rewrite mapM_cons.
  change (dict_getitem d y)
    with (match d !! y with Some v => Ok v | None => Err (KeyError y) end).
  destruct (d !! y) as [v|] eqn:Hy; [|eexists; reflexivity].
  apply elem_of_cons in Hin as [-> | Hin]; [congruence|].
  destruct (IH Hin) as [k ->]. eexists. reflexivity.
Qed.

Section Edges.
Context `{UnicodeDB}.
Variable classify : text -> text.

(** X11. [createdb] raises the [KeyError] of the language check when
    one of the languages is not a key of [LANGDICT], whatever the files
    hold: no file is read before the check. *)
Theorem createdb_fails_fast (path : meta) (languages : list text)
    (db : Database)
    (process_definitions process_relations process_semantic_types : bool)
    (preprocessor : option (text -> text)) (l : text) :
  l ∈ languages ->
  LANGDICT !! l = None ->
  createdb classify path languages db process_definitions process_relations
    process_semantic_types preprocessor
  = Err (KeyError (txt "Not all languages you passed are valid.")).
Proof.
  intros Hin Hl. unfold createdb, isolanguages_of.
  destruct (mapM_dict_getitem_Err LANGDICT
              (elements (list_to_set languages : gset text)) l) as [k ->].
  - apply elem_of_elements. by apply elem_of_list_to_set.
  - exact Hl.
  - reflexivity.
Qed.

Lemma isolanguages_of_Ok (languages : gset text) :
  (forall l, l ∈ languages -> is_Some (LANGDICT !! l)) ->
  exists isolanguages, isolanguages_of languages = Ok isolanguages.
Proof.
  intros Hall. unfold isolanguages_of.
  destruct (mapM_dict_getitem_Ok LANGDICT (elements languages)) as [ys ->].
  - apply Forall_forall. intros l Hl. apply Hall. by apply elem_of_elements.
  - by eexists.
Qed.

(** X12. An empty file stops the pass that reads it with
    [UnboundLocalError]: [createdb] on an empty MRCONSO once the
    languages have passed the check, and each enrichment pass on its own
    empty file, whatever the table holds. *)
Theorem empty_file_raises (path : meta) (languages : list text)
    (db : Database)
    (process_definitions process_relations process_semantic_types : bool)
    (preprocessor : option (text -> text)) (concepts : gmap text Concept.t) :
  (forall l, l ∈ languages -> is_Some (LANGDICT !! l)) ->
  (MRCONSO path = [] ->
     createdb classify path languages db process_definitions
       process_relations process_semantic_types preprocessor
     = Err UnboundLocalError)
  /\ process_mrdef classify [] concepts (list_to_set languages) preprocessor
     = Err UnboundLocalError
  /\ process_mrrel [] concepts = Err UnboundLocalError
  /\ process_mrsty [] concepts = Err UnboundLocalError.
Proof.
  intros Hall.
  destruct (isolanguages_of_Ok (list_to_set languages)) as [iso Hiso].
  { intros l Hl. apply Hall. by apply elem_of_list_to_set in Hl. }
  split; [|split; [|split]].
  - intros Hempty. unfold createdb. rewrite Hiso. cbn.
    unfold _create_terms. by rewrite Hempty.
  - unfold process_mrdef. by rewrite Hiso.
  - reflexivity.
  - reflexivity.
Qed.

(** X13. A record with fewer than 15 fields whose language the filter
    rejects is skipped by the loops of [_create_concepts] and
    [_create_terms] but makes the loop of [_create_strings] raise
    [IndexError]: that loop reads column 14 before it tests the
    language. *)
Theorem strings_read_before_filter (languages : gset text)
    (concepts : gmap text Concept.t) (terms : gmap text Term.t)
    (strings : gmap text StringRecord.t) (record lang : text) :
  fields record !! 1 = Some lang ->
  languages <> ∅ ->
  lang ∉ languages ->
  length (fields record) <= 14 ->
  concepts_record languages concepts record = Ok concepts
  /\ terms_record languages terms record = Ok terms
  /\ strings_record languages strings record = Err IndexError.
Proof.
  intros H1 Hne Hnotin Hlen.
  pose proof (rejected_eq languages (fields record) lang H1) as Hrej.
  rewrite bool_decide_eq_true_2 in Hrej by done.
  unfold concepts_record, terms_record, strings_record. rewrite Hrej.
  split; [done|]. split; [done|].
  unfold getitem. by rewrite (lookup_ge_None_2 _ 14).
Qed.

(** X14. A record that lacks a column an enrichment step reads makes
    the step raise [IndexError], before anything else is looked at: a
    definition record with fewer than 6 fields whatever the languages, a
    relation record with fewer than 5 fields whatever its code, a
    semantic-type record with fewer than 3 fields. *)
Theorem short_enrichment_record_raises (isolanguages : gset text)
    (preprocessor : option (text -> text)) (concepts : gmap text Concept.t)
    (defrecord relrecord styrecord : text) :
  length (fields defrecord) <= 5 ->
  length (fields relrecord) <= 4 ->
  length (fields styrecord) <= 2 ->
  mrdef_record classify isolanguages preprocessor concepts defrecord
  = Err IndexError
  /\ mrrel_record concepts relrecord = Err IndexError
  /\ mrsty_record concepts styrecord = Err IndexError.
Proof.
  intros Hdef Hrel Hsty.
  destruct (split_on_head PIPE (strip defrecord)) as [pk Hpk].
  destruct (split_on_head PIPE (strip styrecord)) as [cui Hcui].
  unfold mrdef_record, mrrel_record, mrsty_record, getitem.
  fold (fields defrecord) in Hpk. fold (fields styrecord) in Hcui.
  rewrite Hpk, Hcui. cbn.
  rewrite (lookup_ge_None_2 (fields defrecord) 5) by done.
  rewrite (lookup_ge_None_2 (fields relrecord) 4) by done.
  by rewrite (lookup_ge_None_2 (fields styrecord) 2).
Qed.

End Edges.

(** X15. What the length guard returns is a prefix of its argument, and
    the guard returns it unchanged when applied again. *)
Theorem length_guard_idempotent (s s' : text) :
  length_guard s = Ok s' ->
  s' `prefix_of` s /\ length_guard s' = Ok s'.
Proof.
  destruct (utf8_encode s) as [bs|] eqn:Hbs;
    [rewrite (length_guard_eq s bs Hbs)
    |unfold length_guard; rewrite Hbs; discriminate].
  destruct (Nat.leb_spec 1000 (length bs)) as [Hlen|Hlen].
  - intros Hd. pose proof (decode_take_encode s bs 1000 Hbs) as Ht.
    rewrite Hd in Ht. destruct Ht as [Hpre He]. split; [done|].
    rewrite (length_guard_eq s' _ He).
    assert (length (take 1000 bs) = 1000) as Hl
      by (rewrite length_take; lia).
    rewrite Hl, take_take, Nat.min_id. exact Hd.
  - intros [= <-]. split; [done|].
    rewrite (length_guard_eq s bs Hbs).
    by destruct (Nat.leb_spec 1000 (length bs)) as [?|_]; [lia|].
Qed.

Lemma createdb_fails_fast_witness :
  createdb (H:=ascii_db) sample_classify sample_meta [txt "ENG"; txt "XXX"]
    sample_db true true true None
  = Err (KeyError (txt "Not all languages you passed are valid.")).
Proof.
  apply (createdb_fails_fast (H:=ascii_db) sample_classify sample_meta
           [txt "ENG"; txt "XXX"] sample_db true true true None (txt "XXX")).
  - apply elem_of_cons. right. apply list_elem_of_singleton. reflexivity.
  - vm_compute. reflexivity.
Defined.

Lemma empty_file_raises_witness :
  (MRCONSO sample_meta = [] ->
     createdb (H:=ascii_db) sample_classify sample_meta [txt "ENG"]
       sample_db true true true None = Err UnboundLocalError)
  /\ process_mrdef (H:=ascii_db) sample_classify [] ∅
       (list_to_set [txt "ENG"]) None = Err UnboundLocalError
  /\ process_mrrel (H:=ascii_db) [] ∅ = Err UnboundLocalError
  /\ process_mrsty (H:=ascii_db) [] ∅ = Err UnboundLocalError.
Proof.
  apply (empty_file_raises (H:=ascii_db) sample_classify sample_meta
           [txt "ENG"] sample_db true true true None ∅).
  intros l Hl. apply list_elem_of_singleton in Hl. rewrite Hl.
  vm_compute. eexists. reflexivity.
Defined.

Example empty_semantic_type_file_stops_the_run :
  _create_concepts (H:=ascii_db) sample_classify
    {| MRCONSO := sample_mrconso; MRDEF := sample_mrdef;
       MRREL := [sample_relation]; MRSTY := [] |}
    true true true {[txt "ENG"]} None
  = Err UnboundLocalError.
Proof. vm_compute. reflexivity. Qed.

Lemma strings_read_before_filter_witness :
  concepts_record (H:=ascii_db) {[txt "ENG"]} ∅ (line "C001|FRE") = Ok ∅
  /\ terms_record (H:=ascii_db) {[txt "ENG"]} ∅ (line "C001|FRE") = Ok ∅
  /\ strings_record (H:=ascii_db) {[txt "ENG"]} ∅ (line "C001|FRE")
     = Err IndexError.
Proof.
  apply (strings_read_before_filter (H:=ascii_db) {[txt "ENG"]} ∅ ∅ ∅
           (line "C001|FRE") (txt "FRE")).
  - vm_compute. reflexivity.
  - vm_compute. discriminate.
  - vm_compute. discriminate.
  - vm_compute. lia.
Defined.

Lemma short_enrichment_record_raises_witness :
  mrdef_record (H:=ascii_db) sample_classify {[txt "en"]} None ∅
    (line "C001|A001|AT001") = Err IndexError
  /\ mrrel_record (H:=ascii_db) ∅ (line "C001|A001|AUI|ZZZ") = Err IndexError
  /\ mrsty_record (H:=ascii_db) ∅ (line "C001|T047") = Err IndexError.
Proof.
  apply (short_enrichment_record_raises (H:=ascii_db) sample_classify
           {[txt "en"]} None ∅ (line "C001|A001|AT001")
           (line "C001|A001|AUI|ZZZ") (line "C001|T047"));
    vm_compute; lia.
Defined.

Lemma length_guard_idempotent_witness :
  replicate 1000 97%Z `prefix_of` replicate 1200 97%Z
  /\ length_guard (replicate 1000 97%Z) = Ok (replicate 1000 97%Z).
Proof.
  apply (length_guard_idempotent (replicate 1200 97%Z) (replicate 1000 97%Z)).
  vm_compute. reflexivity.
Defined.

(** ** Runs that return *)

(** A loop whose body returns on every line returns. *)
Lemma for_each_returns {S : Type} (body : S -> text -> result S)
    (lines : list text) :
  Forall (fun r => forall st, exists st', body st r = Ok st') lines ->
  forall st, exists st', for_each body st lines = Ok st'.
Proof.
  induction 1 as [|r lines Hr _ IH]; intros st; [by eexists|].
  cbn [for_each]. destruct (Hr st) as [st1 ->]. apply IH.
Qed.

Lemma getitem_lt (split : list text) (i : nat) :
  i < length split -> exists x, getitem split i = Ok x.
Proof.
  intros [x Hx]%lookup_lt_is_Some. exists x. unfold getitem. by rewrite Hx.
Qed.

Lemma count_lines_returns (lines : list text) :
  lines <> [] -> exists n, count_lines lines = Ok n.
Proof.
  destruct lines as [|r lines]; [done|]. intros _.
  rewrite count_lines_cons. by eexists.
Qed.

Lemma rejected_returns (languages : gset text) (split : list text) :
  1 < length split -> exists skip, rejected languages split = Ok skip.
Proof.
  intros [lang Hlang]%getitem_lt. unfold rejected. rewrite Hlang.
  destruct (decide (languages = ∅)); by eexists.
Qed.

Section Returns.
Context `{UnicodeDB}.
Variable classify : text -> text.

Lemma mrconso_record_ok_length record :
  mrconso_record_ok record -> 14 < length (fields record).
Proof. intros (raw & s & H14 & _). by apply lookup_lt_Some in H14. Qed.

Lemma concepts_record_returns languages concepts record :
  mrconso_record_ok record ->
  exists concepts', concepts_record languages concepts record = Ok concepts'.
Proof.
  intros Hlen%mrconso_record_ok_length. unfold concepts_record.
  destruct (rejected_returns languages (fields record)) as [skip ->]; [lia|].
  destruct skip; [by eexists|].
  destruct (getitem_lt (fields record) 0) as [cui ->]; [lia|].
  destruct (getitem_lt (fields record) 5) as [sui ->]; [lia|].
  destruct (getitem_lt (fields record) 3) as [lui ->]; [lia|].
  destruct (getitem_lt (fields record) 2) as [flag ->]; [lia|].
  by eexists.
Qed.

Lemma terms_record_returns languages terms record :
  mrconso_record_ok record ->
  exists terms', terms_record languages terms record = Ok terms'.
Proof.
  intros Hlen%mrconso_record_ok_length. unfold terms_record.
  destruct (rejected_returns languages (fields record)) as [skip ->]; [lia|].
  destruct skip; [by eexists|].
  destruct (getitem_lt (fields record) 0) as [cui ->]; [lia|].
  destruct (getitem_lt (fields record) 5) as [sui ->]; [lia|].
  destruct (getitem_lt (fields record) 3) as [lui ->]; [lia|].
  by eexists.
Qed.

Lemma strings_record_returns languages strings record :
  mrconso_record_ok record ->
  exists strings', strings_record languages strings record = Ok strings'.
Proof.
  intros Hok. pose proof (mrconso_record_ok_length _ Hok) as Hlen.
  destruct Hok as (raw & string & H14 & Hguard).
  unfold strings_record.
  rewrite (proj2 (getitem_Ok (fields record) 14 raw) H14). cbn.
  rewrite Hguard. cbn.
  destruct (rejected_returns languages (fields record)) as [skip ->]; [lia|].
  destruct skip; [by eexists|].
  destruct (getitem_lt (fields record) 0) as [cui ->]; [lia|].
  destruct (getitem_lt (fields record) 5) as [sui ->]; [lia|].
  destruct (getitem_lt (fields record) 3) as [lui ->]; [lia|].
  destruct (getitem_lt (fields record) 1) as [lang ->]; [lia|].
  by eexists.
Qed.

Lemma process_mrdef_returns mrdef concepts languages preprocessor :
  (forall l, l ∈ languages -> is_Some (LANGDICT !! l)) ->
  file_of mrdef_record_ok mrdef ->
  exists concepts',
    process_mrdef classify mrdef concepts languages preprocessor = Ok concepts'.
Proof.
  intros Hlang [Hne Hall]. unfold process_mrdef.
  destruct (isolanguages_of_Ok languages Hlang) as [iso ->].
  destruct (count_lines_returns mrdef Hne) as [n ->]. cbn.
  destruct (for_each_returns (mrdef_record classify iso preprocessor) mrdef)
    with (st := concepts) as [cs ->]; [|by eexists].
  eapply Forall_impl; [exact Hall|]. intros r Hr st. unfold mrdef_record.
  destruct (getitem_lt (fields r) 0) as [pk ->];
    [unfold mrdef_record_ok in Hr; lia|].
  destruct (getitem_lt (fields r) 5) as [d ->]; [exact Hr|]. cbn.
  case_bool_decide; by eexists.
Qed.

Lemma process_mrrel_returns mrrel concepts :
  file_of mrrel_record_ok mrrel ->
  exists concepts', process_mrrel mrrel concepts = Ok concepts'.
Proof.
  intros [Hne Hall]. unfold process_mrrel.
  destruct (count_lines_returns mrrel Hne) as [n ->]. cbn.
  apply for_each_returns.
  eapply Forall_impl; [exact Hall|].
  intros r (Hlen & code & H3 & [rel Hrel]) st.
  destruct (lookup_lt_is_Some_2 (fields r) 4) as [source H4]; [lia|].
  destruct (lookup_lt_is_Some_2 (fields r) 0) as [dest H0]; [lia|].
  rewrite (mrrel_record_eq st r source code dest H0 H3 H4).
  unfold dict_getitem. rewrite Hrel. cbn.
  pose proof (rel_add_eq st source rel dest) as Hadd. cbn in Hadd.
  rewrite Hadd. by eexists.
Qed.

Lemma process_mrsty_returns mrsty concepts :
  file_of mrsty_record_ok mrsty ->
  exists concepts', process_mrsty mrsty concepts = Ok concepts'.
Proof.
  intros [Hne Hall]. unfold process_mrsty.
  destruct (count_lines_returns mrsty Hne) as [n ->]. cbn.
  apply for_each_returns.
  eapply Forall_impl; [exact Hall|].
  intros r Hr st. unfold mrsty_record.
  destruct (getitem_lt (fields r) 0) as [cui ->];
    [unfold mrsty_record_ok in Hr; lia|].
  destruct (getitem_lt (fields r) 2) as [sty ->]; [exact Hr|].
  by eexists.
Qed.

(** X16. When every language is a key of [LANGDICT], MRCONSO has a line
    and each of its records has a column 14 the length guard lets
    through, and the file of every enabled enrichment pass has a line
    and, in each record, the columns the pass reads (for relations, a
    code of the table), [createdb] builds its three sets and reaches the
    request for the index: it returns the three sets if the database
    answers the request, and raises the exception of the request
    otherwise. *)
Theorem createdb_returns (path : meta) (languages : list text)
    (db : Database)
    (process_definitions process_relations process_semantic_types : bool)
    (preprocessor : option (text -> text)) :
  (forall l, l ∈ languages -> is_Some (LANGDICT !! l)) ->
  file_of mrconso_record_ok (MRCONSO path) ->
  (process_definitions = true -> file_of mrdef_record_ok (MRDEF path)) ->
  (process_relations = true -> file_of mrrel_record_ok (MRREL path)) ->
  (process_semantic_types = true -> file_of mrsty_record_ok (MRSTY path)) ->
  exists concepts strings terms,
    createdb classify path languages db process_definitions
      process_relations process_semantic_types preprocessor
    = match create_index db (txt "string")
              [(txt "string", ASCENDING); (txt "lower", ASCENDING);
               (txt "lang", ASCENDING)] true with
      | Ok _ => Ok (concepts, strings, terms)
      | Err e => Err e
      end.
Proof.
  intros Hlang [Hne Hconso] Hdef Hrel Hsty.
  assert (forall l, l ∈ (list_to_set languages : gset text) ->
            is_Some (LANGDICT !! l)) as Hlang'
    by (intros l Hl; apply Hlang; by apply elem_of_list_to_set in Hl).
  unfold createdb.
  destruct (isolanguages_of_Ok _ Hlang') as [iso ->]. cbn.
  unfold _create_terms, _create_strings, _create_concepts.
  destruct (count_lines_returns _ Hne) as [n ->]. cbn.
  destruct (for_each_returns (terms_record (list_to_set languages))
              (MRCONSO path)) with (st := (∅ : gmap text Term.t))
    as [terms ->].
  { eapply Forall_impl; [exact Hconso|].
    intros r Hr st. by apply terms_record_returns. }
  cbn.
  destruct (for_each_returns (strings_record (list_to_set languages))
              (MRCONSO path)) with (st := (∅ : gmap text StringRecord.t))
    as [strings ->].
  { eapply Forall_impl; [exact Hconso|].
    intros r Hr st. by apply strings_record_returns. }
  cbn.
  destruct (for_each_returns (concepts_record (list_to_set languages))
              (MRCONSO path)) with (st := (∅ : gmap text Concept.t))
    as [c0 ->].
  { eapply Forall_impl; [exact Hconso|].
    intros r Hr st. by apply concepts_record_returns. }
  cbn.
  assert (exists c1,
            (if process_definitions
             then process_mrdef classify (MRDEF path) c0
                    (list_to_set languages) preprocessor
             else Ok c0) = Ok c1) as [c1 ->].
  { destruct process_definitions; [|by eexists].
    by apply process_mrdef_returns; [|apply Hdef]. }
  cbn.
  assert (exists c2,
            (if process_relations then process_mrrel (MRREL path) c1
             else Ok c1) = Ok c2) as [c2 ->].
  { destruct process_relations; [|by eexists].
    by apply process_mrrel_returns, Hrel. }
  cbn.
  assert (exists c3,
            (if process_semantic_types then process_mrsty (MRSTY path) c2
             else Ok c2) = Ok c3) as [c3 ->].
  { destruct process_semantic_types; [|by eexists].
    by apply process_mrsty_returns, Hsty. }
  cbn. exists c3, strings, terms.
  by destruct (create_index db _ _ _).
Qed.

End Returns.

Lemma createdb_returns_witness :
  exists concepts strings terms,
    createdb (H:=ascii_db) sample_classify sample_meta [txt "ENG"]
      unreachable_db true true true None
    = match create_index unreachable_db (txt "string")
              [(txt "string", ASCENDING); (txt "lower", ASCENDING);
               (txt "lang", ASCENDING)] true with
      | Ok _ => Ok (concepts, strings, terms)
      | Err e => Err e
      end.
Proof.
  apply (createdb_returns (H:=ascii_db) sample_classify sample_meta
           [txt "ENG"] unreachable_db true true true None).
  - intros l Hl. apply list_elem_of_singleton in Hl. rewrite Hl.
    vm_compute. eexists. reflexivity.
  - split; [discriminate|].
    repeat (constructor;
            [eexists; eexists;
             split; [vm_compute; reflexivity | vm_compute; reflexivity]|]).
    constructor.
  - intros _. split; [discriminate|].
    repeat (constructor; [vm_compute; lia|]). constructor.
  - intros _. split; [discriminate|].
    repeat (constructor;
            [split; [vm_compute; lia|];
             exists (txt "PAR"); split; vm_compute;
             [reflexivity | eexists; reflexivity]|]).
    constructor.
  - intros _. split; [discriminate|].
    repeat (constructor; [vm_compute; lia|]). constructor.
Defined.

(** ** The language filter over a file *)

Lemma for_each_frame {S A : Type} (obs : S -> A)
    (body : S -> text -> result S) (lines : list text) :
  (forall st r st', body st r = Ok st' -> obs st' = obs st) ->
  forall st st', for_each body st lines = Ok st' -> obs st' = obs st.
Proof.
  intros Hbody. induction lines as [|r lines IH]; intros st st'.
  - by intros [= <-].
  - cbn [for_each]. intros (st1 & H1 & H2)%bind_Ok_inv.
    by rewrite (IH _ _ H2), (Hbody _ _ _ H1).
Qed.

Section FilterOverFile.
Context `{UnicodeDB}.
Variable classify : text -> text.





Lemma create_concepts_returns path pd pr ps languages preprocessor :
  file_of mrconso_record_ok (MRCONSO path) ->
  enrichment_ok path languages pd pr ps ->
  exists concepts,
    _create_concepts classify path pd pr ps languages preprocessor
    = Ok concepts.
Proof.
  intros [Hne Hall] (Hdef & Hrel & Hsty). unfold _create_concepts.
  destruct (count_lines_returns _ Hne) as [n ->]. cbn.
  destruct (for_each_returns (concepts_record languages) (MRCONSO path))
    with (st := (∅ : gmap text Concept.t)) as [c0 ->].
  { eapply Forall_impl; [exact Hall|].
    intros r Hr st. by apply concepts_record_returns. }
  cbn.
  assert (exists c1,
            (if pd
             then process_mrdef classify (MRDEF path) c0 languages preprocessor
             else Ok c0) = Ok c1) as [c1 ->].
  { destruct pd; [|by eexists].
    destruct (Hdef eq_refl) as [Hlang Hfile].
    by apply process_mrdef_returns. }
  cbn.
  assert (exists c2,
            (if pr then process_mrrel (MRREL path) c1 else Ok c1) = Ok c2)
    as [c2 ->].
  { destruct pr; [|by eexists]. by apply process_mrrel_returns, Hrel. }
  cbn.
  assert (exists c3,
            (if ps then process_mrsty (MRSTY path) c2 else Ok c2) = Ok c3)
    as [c3 ->].
  { destruct ps; [|by eexists]. by apply process_mrsty_returns, Hsty. }
  cbn. by eexists.
Qed.


End FilterOverFile.


(** The sample under the two language sets: the record adds its
    identifiers under [{ENG}] and nothing under [{FRE}]. *)
Example language_filter_accepts_and_skips :
  (fun terms => term_cuis terms (txt "L002"))
    <$> _create_terms (H:=ascii_db) sample_mrconso {[txt "ENG"]}
  = Ok [txt "C001"]
  /\ (fun terms => term_cuis terms (txt "L002"))
       <$> _create_terms (H:=ascii_db) sample_mrconso {[txt "FRE"]}
     = Ok []
  /\ _create_terms (H:=ascii_db) sample_mrconso {[txt "FRE"]} = Ok ∅
  /\ _create_strings (H:=ascii_db) sample_mrconso {[txt "FRE"]} = Ok ∅
  /\ _create_concepts (H:=ascii_db) sample_classify sample_meta
       false false false {[txt "FRE"]} None = Ok ∅.
Proof.
  do 4 (split; [vm_compute; reflexivity|]). vm_compute. reflexivity.
Qed.


(** ** Keys the concept file never had *)

Lemma update_keeps_field {A : Type} (g : Concept.t -> A)
    (f : Concept.t -> Concept.t) (concepts : gmap text Concept.t)
    (k k' : text) :
  (forall c, g (f c) = g c) ->
  g (default Concept.empty
       (<[k := f (default Concept.empty (concepts !! k))]> concepts !! k'))
  = g (default Concept.empty (concepts !! k')).
Proof.
  intros Hf. destruct (decide (k = k')) as [-> | Hne].
  - rewrite lookup_insert_eq. cbn. apply Hf.
  - by rewrite lookup_insert_ne.
Qed.

Lemma relations_of_None concepts cui name :
  Concept.rel (default Concept.empty (concepts !! cui)) = None ->
  relations_of concepts cui name = [].
Proof.
  intros Hrel. rewrite relations_of_eq. unfold rel_dict. by rewrite Hrel.
Qed.

Lemma relations_of_is_Some concepts cui name x :
  x ∈ relations_of concepts cui name -> is_Some (concepts !! cui).
Proof.
  unfold relations_of. destruct (concepts !! cui); [by eexists|].
  by intros ?%elem_of_nil.
Qed.

Lemma concept_semtypes_is_Some concepts cui x :
  x ∈ concept_semtypes concepts cui -> is_Some (concepts !! cui).
Proof.
  unfold concept_semtypes. destruct (concepts !! cui); [by eexists|].
  by intros ?%elem_of_nil.
Qed.

Section UnseenKeys.
Context `{UnicodeDB}.
Variable classify : text -> text.

(** The definitions pass leaves every field but ["definition"]. *)
Lemma process_mrdef_frame {A : Type} (g : Concept.t -> A)
    mrdef concepts languages preprocessor concepts' k :
  (forall l c, g (Concept.set_definition l c) = g c) ->
  process_mrdef classify mrdef concepts languages preprocessor = Ok concepts' ->
  g (default Concept.empty (concepts' !! k))
  = g (default Concept.empty (concepts !! k)).
Proof.
  intros Hg. unfold process_mrdef.
  intros (iso & _ & Hrun)%bind_Ok_inv.
  apply bind_Ok_inv in Hrun as (n & _ & Hrun).
  apply bind_Ok_inv in Hrun as (cs & Hloop & Hrun).
  injection Hrun as <-. rewrite relist_definitions_id.
  revert Hloop.
  apply (for_each_frame (fun st => g (default Concept.empty (st !! k)))).
  intros st r st'. unfold mrdef_record.
  intros (pk & _ & Hrow)%bind_Ok_inv.
  apply bind_Ok_inv in Hrow as (definition & _ & Hrow).
  case_bool_decide; injection Hrow as <-; [done|].
  unfold definition_add.
  by apply (update_keeps_field g (Concept.set_definition _)).
Qed.

(** The relations pass leaves every field but ["rel"]. *)
Lemma process_mrrel_frame {A : Type} (g : Concept.t -> A)
    mrrel concepts concepts' k :
  (forall r c, g (Concept.set_rel r c) = g c) ->
  process_mrrel mrrel concepts = Ok concepts' ->
  g (default Concept.empty (concepts' !! k))
  = g (default Concept.empty (concepts !! k)).
Proof.
  intros Hg. unfold process_mrrel. intros (n & _ & Hloop)%bind_Ok_inv.
  revert Hloop.
  apply (for_each_frame (fun st => g (default Concept.empty (st !! k)))).
  intros st r st'. unfold mrrel_record.
  intros (source & _ & Hrow)%bind_Ok_inv.
  apply bind_Ok_inv in Hrow as (dest & _ & Hrow).
  apply bind_Ok_inv in Hrow as (code & _ & Hrow).
  apply bind_Ok_inv in Hrow as (rel & _ & Hrow).
  rewrite rel_add_eq in Hrow. injection Hrow as <-.
  by apply (update_keeps_field g (Concept.set_rel _)).
Qed.

(** The semantic-type pass leaves every field but ["semtype"]. *)
Lemma process_mrsty_frame {A : Type} (g : Concept.t -> A)
    mrsty concepts concepts' k :
  (forall l c, g (Concept.set_semtype l c) = g c) ->
  process_mrsty mrsty concepts = Ok concepts' ->
  g (default Concept.empty (concepts' !! k))
  = g (default Concept.empty (concepts !! k)).
Proof.
  intros Hg. unfold process_mrsty. intros (n & _ & Hloop)%bind_Ok_inv.
  revert Hloop.
  apply (for_each_frame (fun st => g (default Concept.empty (st !! k)))).
  intros st r st'. unfold mrsty_record.
  intros (cui & _ & Hrow)%bind_Ok_inv.
  apply bind_Ok_inv in Hrow as (semantic_type & _ & Hrow).
  injection Hrow as <-. unfold semtype_add.
  by apply (update_keeps_field g (Concept.set_semtype _)).
Qed.

(** The MRCONSO loop stores nothing under a CUI of no accepted record. *)
Lemma unseen_key_absent languages mrconso c0 cui :
  (forall split, split ∈ accepted_records languages mrconso ->
     split !! 0 <> Some cui) ->
  for_each (concepts_record languages) ∅ mrconso = Ok c0 ->
  c0 !! cui = None.
Proof.
  intros Hunseen H0.
  assert (accepted_records languages mrconso ≫= pick 0 3 cui = []) as Hnil.
  { destruct (accepted_records languages mrconso ≫= pick 0 3 cui)
      as [|x l] eqn:Hl; [done|].
    assert (x ∈ accepted_records languages mrconso ≫= pick 0 3 cui) as Hx
      by (rewrite Hl; apply elem_of_cons; by left).
    apply elem_of_pick in Hx as (split & Hin & Hcui & _).
    by destruct (Hunseen split Hin). }
  assert (concept_luis c0 cui = []) as Hluis.
  { rewrite <- Hnil. unfold accepted_records. rewrite list_bind_bind.
    pose proof (for_each_collect (fun cs => concept_luis cs cui)
                  (fun r => accepted languages r ≫= pick 0 3 cui) _ _
                  (fun st r st' Hr =>
                     proj1 (concepts_record_collect languages cui st r st' Hr))
                  _ _ H0) as Hc.
    unfold concept_luis in Hc at 2. rewrite lookup_empty in Hc. exact Hc. }
  assert (map_Forall (fun k c => Concept._id c = Some k
                        /\ field_list (Concept.lui c) <> []) c0) as Hkeyed.
  { revert H0. apply for_each_invariant; [|apply map_Forall_empty].
    intros st r st'. apply concepts_record_keyed. }
  destruct (c0 !! cui) as [c|] eqn:Hc; [|done].
  destruct (Hkeyed cui c Hc) as [_ Hl]. unfold concept_luis in Hluis.
  rewrite Hc in Hluis. by destruct Hl.
Qed.

(** C10. For a CUI that is column 0 of no accepted record of MRCONSO,
    in the set [_create_concepts] returns: its aggregate has no ["_id"],
    ["preferred"], ["lui"] or ["sui"]; when the relations are read, each
    of its relation lists holds column 0 of the relation records whose
    column 4 is that CUI and whose code stands for the name of the list,
    in the order of the file, and is empty when they are not read; its
    ["semtype"] list holds column 2 of the semantic-type records whose
    column 0 is that CUI, and is empty when they are not read; its
    ["definition"] list holds the definitions of the accepted definition
    records whose column 0 is that CUI, and is empty when they are not
    read. So a relation record or a semantic-type record with that CUI
    as its key puts the CUI among the keys of the returned set, and its
    value in the list. The construction does return on well-formed
    files. *)
Theorem enrichment_adds_unseen_key (path : meta)
    (process_definitions process_relations process_semantic_types : bool)
    (languages : gset text) (preprocessor : option (text -> text))
    (cui : text) :
  (forall split, split ∈ accepted_records languages (MRCONSO path) ->
     split !! 0 <> Some cui) ->
  (forall concepts,
     _create_concepts classify path process_definitions process_relations
       process_semantic_types languages preprocessor = Ok concepts ->
     (Concept._id (default Concept.empty (concepts !! cui)) = None
      /\ Concept.preferred (default Concept.empty (concepts !! cui)) = None
      /\ Concept.lui (default Concept.empty (concepts !! cui)) = None
      /\ Concept.sui (default Concept.empty (concepts !! cui)) = None)
     /\ (forall name,
           relations_of concepts cui name
           = if process_relations
             then (fields <$> MRREL path) ≫= pick_rel cui name
             else [])
     /\ concept_semtypes concepts cui
        = (if process_semantic_types
           then (fields <$> MRSTY path) ≫= pick 0 2 cui
           else [])
     /\ (if process_definitions
         then exists isolanguages,
                isolanguages_of languages = Ok isolanguages
                /\ concept_definitions concepts cui
                   = (fields <$> MRDEF path)
                       ≫= pick_def classify isolanguages preprocessor cui
         else concept_definitions concepts cui = [])
     /\ (process_relations = true ->
         forall record code rel dest,
           record ∈ MRREL path ->
           fields record !! 0 = Some dest ->
           fields record !! 3 = Some code ->
           fields record !! 4 = Some cui ->
           RELATIONMAPPING !! code = Some rel ->
           is_Some (concepts !! cui) /\ dest ∈ relations_of concepts cui rel)
     /\ (process_semantic_types = true ->
         forall record semantic_type,
           record ∈ MRSTY path ->
           fields record !! 0 = Some cui ->
           fields record !! 2 = Some semantic_type ->
           is_Some (concepts !! cui)
           /\ semantic_type ∈ concept_semtypes concepts cui))
  /\ (file_of mrconso_record_ok (MRCONSO path) ->
      enrichment_ok path languages process_definitions process_relations
        process_semantic_types ->
      exists concepts,
        _create_concepts classify path process_definitions process_relations
          process_semantic_types languages preprocessor = Ok concepts).
Proof.
  intros Hunseen. split; [|by apply create_concepts_returns].
  intros concepts Hrun.
  destruct (create_concepts_stages classify _ _ _ _ _ _ _ Hrun)
    as (c0 & c1 & c2 & H0 & H1 & H2 & H3).
  pose proof (unseen_key_absent _ _ _ _ Hunseen H0) as Hc0.
  destruct (stages_keep classify _ _ _ _ _ _ _ _ _ _ H1 H2 H3 cui)
    as [_ (Sid & Spref & Slui & Ssui)].
  rewrite Hc0 in Sid, Spref, Slui, Ssui. cbn in Sid, Spref, Slui, Ssui.
  split; [done|].
  (* the fields of the enrichment after each stage *)
  assert (Concept.rel (default Concept.empty (c1 !! cui)) = None
          /\ Concept.semtype (default Concept.empty (c1 !! cui)) = None)
    as [R1 T1].
  { destruct process_definitions.
    - rewrite (process_mrdef_frame Concept.rel _ _ _ _ _ cui
                 (fun _ _ => eq_refl) H1).
      rewrite (process_mrdef_frame Concept.semtype _ _ _ _ _ cui
                 (fun _ _ => eq_refl) H1).
      by rewrite Hc0.
    - injection H1 as <-. by rewrite Hc0. }
  assert (concept_definitions concepts cui = concept_definitions c1 cui)
    as D3.
  { unfold concept_definitions.
    transitivity (field_list
                    (Concept.definition (default Concept.empty (c2 !! cui)))).
    - destruct process_semantic_types; [|by injection H3 as <-].
      by rewrite (process_mrsty_frame Concept.definition _ _ _ cui
                    (fun _ _ => eq_refl) H3).
    - destruct process_relations; [|by injection H2 as <-].
      by rewrite (process_mrrel_frame Concept.definition _ _ _ cui
                    (fun _ _ => eq_refl) H2). }
  assert (if process_definitions
          then exists isolanguages,
                 isolanguages_of languages = Ok isolanguages
                 /\ concept_definitions c1 cui
                    = (fields <$> MRDEF path)
                        ≫= pick_def classify isolanguages preprocessor cui
          else concept_definitions c1 cui = []) as D1.
  { destruct process_definitions.
    - revert H1. unfold process_mrdef.
      intros (iso & Hiso & Hdef)%bind_Ok_inv.
      apply bind_Ok_inv in Hdef as (n & _ & Hdef).
      apply bind_Ok_inv in Hdef as (cs & Hloop & Hdef).
      injection Hdef as <-. rewrite relist_definitions_id.
      exists iso. split; [done|]. rewrite list_bind_fmap.
      pose proof (for_each_collect (fun cs => concept_definitions cs cui)
                    (fun r => pick_def classify iso preprocessor cui (fields r))
                    _ _
                    (fun st r st' Hr =>
                       mrdef_record_collect classify iso preprocessor cui
                         st r st' Hr)
                    _ _ Hloop) as Hc.
      cbv beta in Hc. rewrite Hc. unfold concept_definitions at 1.
      by rewrite Hc0.
    - injection H1 as <-. unfold concept_definitions. by rewrite Hc0. }
  assert ((forall name,
             relations_of c2 cui name
             = if process_relations
               then (fields <$> MRREL path) ≫= pick_rel cui name
               else [])
          /\ Concept.semtype (default Concept.empty (c2 !! cui)) = None)
    as [R2 T2].
  { destruct process_relations.
    - split.
      + intros name. rewrite list_bind_fmap.
        revert H2. unfold process_mrrel. intros (n & _ & Hloop)%bind_Ok_inv.
        pose proof (for_each_collect (fun cs => relations_of cs cui name)
                      (fun r => pick_rel cui name (fields r)) _ _
                      (fun st r st' Hr =>
                         mrrel_record_collect cui name st r st' Hr)
                      _ _ Hloop) as Hc.
        cbv beta in Hc. by rewrite Hc, (relations_of_None c1).
      + by rewrite (process_mrrel_frame Concept.semtype _ _ _ cui
                      (fun _ _ => eq_refl) H2).
    - injection H2 as <-. split; [|done].
      intros name. by apply relations_of_None. }
  assert ((forall name, relations_of concepts cui name
                        = relations_of c2 cui name)
          /\ concept_semtypes concepts cui
             = (if process_semantic_types
                then (fields <$> MRSTY path) ≫= pick 0 2 cui
                else [])) as [R3 T3].
  { destruct process_semantic_types.
    - split.
      + intros name. rewrite !relations_of_eq. unfold rel_dict.
        by rewrite (process_mrsty_frame Concept.rel _ _ _ cui
                      (fun _ _ => eq_refl) H3).
      + rewrite list_bind_fmap.
        revert H3. unfold process_mrsty. intros (n & _ & Hloop)%bind_Ok_inv.
        pose proof (for_each_collect (fun cs => concept_semtypes cs cui)
                      (fun r => pick 0 2 cui (fields r)) _ _
                      (fun st r st' Hr => mrsty_record_collect cui st r st' Hr)
                      _ _ Hloop) as Hc.
        cbv beta in Hc. rewrite Hc. unfold concept_semtypes at 1.
        by rewrite T2.
    - injection H3 as <-. split; [done|].
      unfold concept_semtypes. by rewrite T2. }
  split; [intros name; by rewrite R3, R2|].
  split; [done|].
  split; [rewrite D3; exact D1|]. split.
  - intros -> record code rel dest Hin F0 F3 F4 Hrel.
    assert (dest ∈ relations_of concepts cui rel) as Hdest.
    { rewrite R3, R2. apply list_elem_of_bind. exists (fields record).
      split; [|by apply list_elem_of_fmap_2].
      unfold pick_rel. rewrite F4, F3, F0, Hrel, decide_True by done.
      by apply list_elem_of_singleton. }
    split; [by eapply relations_of_is_Some | done].
  - intros -> record semantic_type Hin F0 F2.
    assert (semantic_type ∈ concept_semtypes concepts cui) as Hsty.
    { rewrite T3. apply list_elem_of_bind. exists (fields record).
      split; [|by apply list_elem_of_fmap_2].
      unfold pick. rewrite F0, F2, decide_True by done.
      by apply list_elem_of_singleton. }
    split; [by eapply concept_semtypes_is_Some | done].
Qed.

End UnseenKeys.

(** C10 on [C002] of the sample: the subject of the one relation, and a
    CUI of no MRCONSO record. *)
Lemma enrichment_adds_unseen_key_witness :
  let languages : gset text := {[txt "ENG"]} in
  let cui := txt "C002" in
  let process_definitions := true in
  let process_relations := true in
  let process_semantic_types := true in
  (forall concepts,
     _create_concepts (H:=ascii_db) sample_classify sample_meta
       process_definitions process_relations process_semantic_types
       languages None = Ok concepts ->
     (Concept._id (default Concept.empty (concepts !! cui)) = None
      /\ Concept.preferred (default Concept.empty (concepts !! cui)) = None
      /\ Concept.lui (default Concept.empty (concepts !! cui)) = None
      /\ Concept.sui (default Concept.empty (concepts !! cui)) = None)
     /\ (forall name,
           relations_of concepts cui name
           = if process_relations
             then (fields (H:=ascii_db) <$> MRREL sample_meta)
                    ≫= pick_rel cui name
             else [])
     /\ concept_semtypes concepts cui
        = (if process_semantic_types
           then (fields (H:=ascii_db) <$> MRSTY sample_meta) ≫= pick 0 2 cui
           else [])
     /\ (if process_definitions
         then exists isolanguages,
                isolanguages_of languages = Ok isolanguages
                /\ concept_definitions concepts cui
                   = (fields (H:=ascii_db) <$> MRDEF sample_meta)
                       ≫= pick_def sample_classify isolanguages None cui
         else concept_definitions concepts cui = [])
     /\ (process_relations = true ->
         forall record code rel dest,
           record ∈ MRREL sample_meta ->
           fields (H:=ascii_db) record !! 0 = Some dest ->
           fields (H:=ascii_db) record !! 3 = Some code ->
           fields (H:=ascii_db) record !! 4 = Some cui ->
           RELATIONMAPPING !! code = Some rel ->
           is_Some (concepts !! cui) /\ dest ∈ relations_of concepts cui rel)
     /\ (process_semantic_types = true ->
         forall record semantic_type,
           record ∈ MRSTY sample_meta ->
           fields (H:=ascii_db) record !! 0 = Some cui ->
           fields (H:=ascii_db) record !! 2 = Some semantic_type ->
           is_Some (concepts !! cui)
           /\ semantic_type ∈ concept_semtypes concepts cui))
  /\ (file_of (mrconso_record_ok (H:=ascii_db)) (MRCONSO sample_meta) ->
      enrichment_ok (H:=ascii_db) sample_meta languages process_definitions
        process_relations process_semantic_types ->
      exists concepts,
        _create_concepts (H:=ascii_db) sample_classify sample_meta
          process_definitions process_relations process_semantic_types
          languages None = Ok concepts).
Proof.
  intros languages cui process_definitions process_relations
    process_semantic_types.
  apply (enrichment_adds_unseen_key (H:=ascii_db) sample_classify sample_meta
           process_definitions process_relations process_semantic_types
           languages None cui).
  assert (Forall (fun split : list text => split !! 0 <> Some cui)
            (accepted_records (H:=ascii_db) languages (MRCONSO sample_meta)))
    as Hall.
  { vm_compute. repeat constructor; intros [=]. }
  intros split Hin. exact (proj1 (Forall_forall _ _) Hall split Hin).
Defined.

(** The run on the sample returns, and [C002] is a key of what it
    returns, with the relation alone. *)
Example unseen_key_in_the_returned_set :
  (fun concepts => concepts !! txt "C002")
    <$> _create_concepts (H:=ascii_db) sample_classify sample_meta
          true true true {[txt "ENG"]} None
  = Ok (Some (only_rel (txt "parent") (txt "C001"))).
Proof. vm_compute. reflexivity. Qed.

(** The CUI [C002] is column 0 of no MRCONSO record. Where it is the key
    of a definition, of a relation and of a semantic type, the aggregate
    the relations pass leaves holds a definition beside the relation,
    and the one returned a semantic type as well: neither is the
    aggregate of one field. Where its relation record has a code the
    table lacks, the pass raises. *)
Lemma unseen_key_aggregate_of_three_fields :
  Forall (fun split : list text => split !! 0 <> Some (txt "C002"))
    (accepted_records (H:=ascii_db) {[txt "ENG"]} sample_mrconso)
  /\ (fun concepts => concepts !! txt "C002")
       <$> _create_concepts (H:=ascii_db) sample_classify shared_key_meta
             true true false {[txt "ENG"]} None
     = Ok (Some (Concept.mk None None None None
                   (Some (RelDict {[txt "parent" := [txt "C001"]]}))
                   (Some [txt "A reply."]) None))
  /\ (fun concepts => concepts !! txt "C002")
       <$> _create_concepts (H:=ascii_db) sample_classify shared_key_meta
             true true true {[txt "ENG"]} None
     = Ok (Some (Concept.mk None None None None
                   (Some (RelDict {[txt "parent" := [txt "C001"]]}))
                   (Some [txt "A reply."]) (Some [txt "B2.2.1.2.1"])))
  /\ Concept.mk None None None None
       (Some (RelDict {[txt "parent" := [txt "C001"]]}))
       (Some [txt "A reply."]) None
     <> only_rel (txt "parent") (txt "C001")
  /\ _create_concepts (H:=ascii_db) sample_classify unknown_code_meta
       true true true {[txt "ENG"]} None
     = Err (KeyError (txt "ZZZ")).
Proof.
  split; [vm_compute; repeat constructor; intros [=]|].
  split; [vm_compute; reflexivity|].
  split; [vm_compute; reflexivity|].
  split; [discriminate|].
  vm_compute. reflexivity.
Qed.
